(** * PPTScanner: slide-text extraction, consolidation and analysis

    A shallow embedding of [main.py].  The script is a linear pipeline:
    configure the client, walk the slides of a deck collecting text (with OCR
    on embedded images), join everything into one labelled string and send
    it to a remote model.

    Python values are modelled as follows.
    - [str] is [string]; a character is one of the 256 values of [ascii],
      read as a code point.
    - [bytes] is [list byte].
    - [int] is [Z].
    - a [dict] is an association list in insertion order, since
      [dict.items()] iterates in insertion order and [d[k] = v] overwrites
      in place.
    - [print], the file-system, the document parser, the OCR engine and the
      remote service are effects: every call is recorded in a trace of
      [Event]s, and what the outside world answers is read from a [World].
    - exceptions are the [inl] results of a trace-and-error monad [M];
      they come from the credential check, the path check, the parser, the
      decoder, the OCR engine, the service and the image lookup of a shape. *)

From Stdlib Require Import List String Ascii ZArith Lia Bool.
From Stdlib.Strings Require Import Byte.
From Stdlib Require Import DecimalString.
Import ListNotations.

Local Open Scope string_scope.
Local Open Scope Z_scope.

(** ** Strings *)

Module Str.

Definition nl : string := String "010"%char EmptyString.
Definition dq : string := String "034"%char EmptyString.

(** [str(n)] for an [int]. *)
Definition of_int (n : Z) : string := NilZero.string_of_int (Z.to_int n).

(** [sep.join(parts)]. *)
Fixpoint join (sep : string) (parts : list string) : string :=
  match parts with
  | [] => EmptyString
  | [p] => p
  | p :: rest => p ++ sep ++ join sep rest
  end.

(** The truth value of a [str]: empty strings are false. *)
Definition truthy (s : string) : bool :=
  match s with
  | EmptyString => false
  | String _ _ => true
  end.

(** [filter(None, parts)] on a list of strings. *)
Definition filter_None (parts : list string) : list string :=
  filter truthy parts.

(** [c.isspace()] for a code point below 256: TAB..CR, FS..US, space,
    NEL and NBSP. *)
Definition isspace (c : ascii) : bool :=
  let n := N_of_ascii c in
  (((9 <=? n) && (n <=? 13)) || ((28 <=? n) && (n <=? 32))
   || (n =? 133) || (n =? 160))%N.

Fixpoint lstrip (s : string) : string :=
  match s with
  | EmptyString => EmptyString
  | String c rest => if isspace c then lstrip rest else s
  end.

Fixpoint rstrip (s : string) : string :=
  match s with
  | EmptyString => EmptyString
  | String c rest =>
      match rstrip rest with
      | EmptyString => if isspace c then EmptyString else String c EmptyString
      | kept => String c kept
      end
  end.

(** [s.strip()]. *)
Definition strip (s : string) : string := rstrip (lstrip s).

(** Every character of [s] is whitespace. *)
Fixpoint all_space (s : string) : bool :=
  match s with
  | EmptyString => true
  | String c rest => isspace c && all_space rest
  end.

Definition first_char (s : string) : option ascii :=
  match s with
  | EmptyString => None
  | String c _ => Some c
  end.

Fixpoint last_char (s : string) : option ascii :=
  match s with
  | EmptyString => None
  | String c EmptyString => Some c
  | String _ rest => last_char rest
  end.

(** [s] neither starts nor ends with a whitespace character. *)
Definition trimmed (s : string) : Prop :=
  (forall c, first_char s = Some c -> isspace c = false) /\
  (forall c, last_char s = Some c -> isspace c = false).

End Str.

(** ** Exceptions

    Only subclasses of [Exception] are modelled.  [main] tells
    [FileNotFoundError] and [ValueError] (with their subclasses) from every
    other class, so those two are constructors of their own. *)

Inductive ExcClass : Type :=
| FileNotFoundError
| ValueError
| OtherError (name : string).

Record Exception : Type := mkExc {
  exc_class : ExcClass;
  exc_str : string            (* str(e) *)
}.

(** ** Effects *)

Definition bytes : Type := list byte.

Inductive Event : Type :=
| EvPrint (line : string)                (* print(line) *)
| EvConfigure (api_key : string)         (* genai.configure(api_key=...) *)
| EvPathExists (path : string)           (* os.path.exists(path) *)
| EvPresentation (path : string)         (* Presentation(path): open and parse *)
| EvImageOpen (blob : bytes)             (* Image.open(io.BytesIO(blob)) *)
| EvImageToString                        (* pytesseract.image_to_string(image) *)
| EvGenerativeModel (name : string)      (* genai.GenerativeModel(name) *)
| EvGenerateContent (prompt : string).   (* model.generate_content(prompt) *)

Definition Trace : Type := list Event.

(** A computation extends the trace and either raises or returns. *)
Definition M (A : Type) : Type := Trace -> Trace * (Exception + A).

Definition ret {A} (a : A) : M A := fun t => (t, inr a).

Definition raise {A} (e : Exception) : M A := fun t => (t, inl e).

Definition bind {A B} (m : M A) (k : A -> M B) : M B :=
  fun t =>
    match m t with
    | (t', inl e) => (t', inl e)
    | (t', inr a) => k a t'
    end.

(** [try: m  except Exception as e: handler e]. *)
Definition try_except {A} (m : M A) (handler : Exception -> M A) : M A :=
  fun t =>
    match m t with
    | (t', inl e) => handler e t'
    | (t', inr a) => (t', inr a)
    end.

Definition emit (ev : Event) : M unit := fun t => ((t ++ [ev])%list, inr tt).

(** An external call: recorded, then answered by the world. *)
Definition call {A} (ev : Event) (answer : Exception + A) : M A :=
  fun t => ((t ++ [ev])%list, answer).

Definition print (line : string) : M unit := emit (EvPrint line).

Declare Scope py_scope.
Delimit Scope py_scope with py.
Notation "x <- m ;; k" := (bind m (fun x => k))
  (at level 100, m at next level, right associativity) : py_scope.
Notation "m ;; k" := (bind m (fun _ => k))
  (at level 100, right associativity) : py_scope.
Local Open Scope py_scope.

(** [for x in xs: acc = body x acc], threading the loop-carried variables. *)
Fixpoint for_each {A S} (xs : list A) (body : A -> S -> M S) (acc : S) : M S :=
  match xs with
  | [] => ret acc
  | x :: rest => acc' <- body x acc ;; for_each rest body acc'
  end.

(** [enumerate(xs)], counting from [start]. *)
Fixpoint enumerate_from {A} (start : Z) (xs : list A) : list (Z * A) :=
  match xs with
  | [] => []
  | x :: rest => (start, x) :: enumerate_from (start + 1) rest
  end.

(** ** Dictionaries keyed by [int], in insertion order *)

Definition dict (V : Type) : Type := list (Z * V).

(** [d[k] = v]: overwrite in place when [k] is present, else append. *)
Fixpoint setitem {V} (d : dict V) (k : Z) (v : V) : dict V :=
  match d with
  | [] => [(k, v)]
  | (k', v') :: rest =>
      if k =? k' then (k', v) :: rest else (k', v') :: setitem rest k v
  end.

(** [d.get(k)]. *)
Fixpoint getitem {V} (d : dict V) (k : Z) : option V :=
  match d with
  | [] => None
  | (k', v') :: rest => if k =? k' then Some v' else getitem rest k
  end.

Definition keys {V} (d : dict V) : list Z := map fst d.

(** ** The document model handed over by the parser

    A shape exposes three independent capabilities; the parser library
    itself is outside the program.  The text frame and the table are
    announced by a flag ([has_text_frame], [has_table]).  The image is not:
    the program reads the attribute [shape.image] inside [hasattr], which
    answers [False] only for an [AttributeError] and lets every other
    exception of the accessor through (a picture that links to its image
    instead of embedding it raises [ValueError]). *)

Inductive ImageAttr : Type :=
| NoImage                        (* no such attribute: hasattr is False *)
| Embedded (blob : bytes)        (* shape.image.blob *)
| ImageRaises (e : Exception).   (* reading shape.image raises e *)

Record Shape : Type := mkShape {
  text_frame : option string;            (* has_text_frame, text_frame.text *)
  table : option (list (list string));   (* has_table, rows of cell texts *)
  image : ImageAttr                      (* hasattr(shape, 'image'), image.blob *)
}.

Record Slide : Type := mkSlide { shapes : list Shape }.

Record Deck : Type := mkDeck { slides : list Slide }.

(** ** The outside world *)

Record World : Type := mkWorld {
  GEMINI_API_KEY : option string;        (* os.getenv after load_dotenv() *)
  os_path_exists : string -> bool;
  Presentation : string -> Exception + Deck;
  DecodedImage : Type;
  Image_open : bytes -> Exception + DecodedImage;
  image_to_string : DecodedImage -> Exception + string;
  Response : Type;
  generate_content : string -> Exception + Response;
  response_text : Response -> Exception + string
}.

(** ** The program *)

Definition config_error : Exception :=
  mkExc ValueError "GEMINI_API_KEY not found. Please set it in your .env file.".

Section Program.

Variable w : World.

(** [configure_ai]: [not GEMINI_API_KEY] holds for [None] and for the empty
    string. *)
Definition configure_ai : M unit :=
  match GEMINI_API_KEY w with
  | Some (String c key) => emit (EvConfigure (String c key))
  | _ => raise config_error
  end.

Definition ocr_warning (e : Exception) : string :=
  "    - Warning: Could not process an image. Error: " ++ exc_str e.

Definition extract_text_from_image (image_bytes : bytes) : M string :=
  try_except
    (img <- call (EvImageOpen image_bytes) (Image_open w image_bytes) ;;
     text <- call EvImageToString (image_to_string w img) ;;
     ret (Str.strip text))
    (fun e => print (ocr_warning e) ;; ret EmptyString).

(** The f-string of [analyze_text_with_gemini] up to [{all_slides_text}]. *)
Definition prompt_head : string :=
  Str.join Str.nl
    [ EmptyString;
      "    You are an expert business and strategy consultant for a top-tier firm like McKinsey or BCG. ";
      "    Your task is to meticulously analyze the following content extracted from a multi-slide PowerPoint presentation. ";
      "    The content from each slide is clearly separated and labeled with '--- Slide X ---'.";
      EmptyString;
      "    Your goal is to identify all factual, numerical, and logical inconsistencies across the entire deck. Pay close attention to:";
      "    1.  **Conflicting Numerical Data:** Look for mismatched revenue figures, user counts, market shares, financial projections, or percentages that don't add up. Be precise. For example, '$15M' on one slide vs. '$12M' on another.";
      "    2.  **Contradictory Textual Claims:** Identify statements that contradict each other. For example, " ++ Str.dq ++ "we are entering a low-competition market" ++ Str.dq ++ " on one slide and " ++ Str.dq ++ "we must navigate a highly competitive landscape" ++ Str.dq ++ " on another.";
      "    3.  **Timeline Mismatches:** Find conflicting dates, project phases, or launch forecasts.";
      EmptyString;
      "    **Instructions for Output:**";
      "    - Analyze the content below thoroughly.";
      "    - If you find one or more inconsistencies, list each one clearly. For each inconsistency, provide:";
      "        - A short, bolded title for the inconsistency (e.g., **Conflicting Revenue Projections**).";
      "        - The slide numbers where the conflicting information appears (e.g., " ++ Str.dq ++ "Slide 2 vs. Slide 4." ++ Str.dq ++ ").";
      "        - The specific conflicting data or statements, quoting them if possible.";
      "        - A brief explanation of why it's an inconsistency.";
      "    - If you find absolutely no inconsistencies, you MUST respond with the single sentence: " ++ Str.dq ++ "No inconsistencies were found in the presentation." ++ Str.dq;
      "    - Do not comment on the presentation's quality, style, or grammar. Focus ONLY on factual and logical contradictions.";
      EmptyString;
      "    Here is the presentation content:";
      "    ---";
      "    " ].

(** The rest of the f-string. *)
Definition prompt_tail : string :=
  Str.join Str.nl
    [ EmptyString;
      "    ---";
      "    " ].

Definition analysis_error (e : Exception) : string :=
  "An error occurred while communicating with the AI model: " ++ exc_str e.

(** A local step that may raise, such as reading [response.text]. *)
Definition lift {A} (r : Exception + A) : M A := fun t => (t, r).

(** [genai.GenerativeModel(...)] sits before the [try]: it builds a local
    handle from a constant name, without a remote call, and is recorded as
    an event that does not raise.  Reading [response.text] is inside the
    [try], like the call itself. *)
Definition analyze_text_with_gemini (all_slides_text : string) : M string :=
  emit (EvGenerativeModel "gemini-1.5-flash-latest") ;;
  let prompt := prompt_head ++ all_slides_text ++ prompt_tail in
  try_except
    (response <- call (EvGenerateContent prompt) (generate_content w prompt) ;;
     lift (response_text w response))
    (fun e => ret (analysis_error e)).

Definition ocr_label : string := "[OCR Text from Image]:".

(** The f-string appended for an image with recognized text. *)
Definition ocr_fragment (ocr_text : string) : string :=
  ocr_label ++ Str.nl ++ ocr_text.

(** [len(xs)]. *)
Definition len {A} (xs : list A) : Z := Z.of_nat (List.length xs).

(** [xs.append(x)]. *)
Definition append {A} (xs : list A) (x : A) : list A := (xs ++ [x])%list.

(** The cells of a table, appended row by row. *)
Definition append_rows (slide_texts : list string) (rows : list (list string))
  : list string :=
  fold_left
    (fun acc row => fold_left (fun acc cell => append acc cell) row acc)
    rows slide_texts.

(** The body of [for shape in slide.shapes]; the loop carries
    [(slide_texts, image_count)]. *)
Definition shape_body (shape : Shape) (st : list string * Z)
  : M (list string * Z) :=
  let '(slide_texts, image_count) := st in
  let slide_texts :=
    match text_frame shape with
    | Some text => append slide_texts text
    | None => slide_texts
    end in
  let slide_texts :=
    match table shape with
    | Some rows => append_rows slide_texts rows
    | None => slide_texts
    end in
  match image shape with
  | Embedded image_bytes =>
      let image_count := image_count + 1 in
      ocr_text <- extract_text_from_image image_bytes ;;
      if Str.truthy ocr_text
      then ret (append slide_texts (ocr_fragment ocr_text), image_count)
      else ret (slide_texts, image_count)
  | NoImage => ret (slide_texts, image_count)
  | ImageRaises e => raise e
  end.

Definition slide_progress (image_count slide_number : Z) : string :=
  if 0 <? image_count
  then "    - Extracted text and " ++ Str.of_int image_count
       ++ " image(s) from Slide " ++ Str.of_int slide_number
  else "    - Extracted text from Slide " ++ Str.of_int slide_number.

(** The body of [for i, slide in enumerate(prs.slides)]; the loop carries
    [slide_data]. *)
Definition slide_body (item : Z * Slide) (slide_data : dict string)
  : M (dict string) :=
  let '(i, slide) := item in
  let slide_number := i + 1 in
  st <- for_each (shapes slide) shape_body ([], 0) ;;
  let '(slide_texts, image_count) := st in
  let slide_data :=
    setitem slide_data slide_number
      (Str.join Str.nl (Str.filter_None slide_texts)) in
  print (slide_progress image_count slide_number) ;;
  ret slide_data.

Definition not_found (pptx_path : string) : Exception :=
  mkExc FileNotFoundError ("The file '" ++ pptx_path ++ "' was not found.").

Definition extract_data_from_pptx (pptx_path : string) : M (dict string) :=
  present <- call (EvPathExists pptx_path) (inr (os_path_exists w pptx_path)) ;;
  if negb present then raise (not_found pptx_path)
  else
    prs <- call (EvPresentation pptx_path) (Presentation w pptx_path) ;;
    print ("[+] Extracting text from "
           ++ Str.of_int (len (slides prs)) ++ " slides...") ;;
    for_each (enumerate_from 0 (slides prs)) slide_body [].

Definition slide_header (num : Z) : string :=
  "--- Slide " ++ Str.of_int num ++ " ---".

(** The join in [main] over [slide_data.items()]. *)
Definition consolidate (slide_data : dict string) : string :=
  Str.join (Str.nl ++ Str.nl)
    (map (fun '(num, text) => slide_header num ++ Str.nl ++ text) slide_data).

Definition banner : string := "========================================".

(** The two [except] clauses of [main]. *)
Definition report_error (e : Exception) : M unit :=
  match exc_class e with
  | FileNotFoundError | ValueError => print ("[!] Error: " ++ exc_str e)
  | OtherError _ => print ("[!] An unexpected error occurred: " ++ exc_str e)
  end.

(** [main], after [parse_args] has produced [args.pptx_file]. *)
Definition main (pptx_file : string) : M unit :=
  try_except
    (configure_ai ;;
     print ("[+] Starting analysis of '" ++ pptx_file ++ "'...") ;;
     slide_data <- extract_data_from_pptx pptx_file ;;
     print "[+] Extraction complete. Consolidating text for analysis." ;;
     let consolidated_text := consolidate slide_data in
     print "[+] Sending data to AI for inconsistency analysis..." ;;
     ai_report <- analyze_text_with_gemini consolidated_text ;;
     print ("[+] Analysis Complete." ++ Str.nl) ;;
     print banner ;;
     print "      AI Inconsistency Report" ;;
     print banner ;;
     print ai_report)
    report_error.

End Program.

(** The loop of [extract_data_from_pptx] on its own, from an empty
    [slide_data]. *)
Definition extract_loop (w : World) (deck_slides : list Slide)
  : M (dict string) :=
  for_each (enumerate_from 0 deck_slides) (slide_body w) [].

(** ** What a run computes, read off the specification

    The definitions below do not come from the code: they say in closed form
    what the specification expects, and the theorems relate the program to
    them. *)

(** [count] consecutive integers from [start]. *)
Fixpoint range_from (start : Z) (count : nat) : list Z :=
  match count with
  | O => []
  | S count' => start :: range_from (start + 1) count'
  end.

(** Keys are exactly 1..N in insertion order. *)
Definition SlideTextMap (d : dict string) : Prop :=
  keys d = range_from 1 (List.length d).

(** The entry of slide [k], empty when there is none. *)
Definition text_at (d : dict string) (k : Z) : string :=
  match getitem d k with
  | Some text => text
  | None => EmptyString
  end.

Section Denotation.

Variable w : World.

(** Decode, then recognize. *)
Definition ocr_outcome (blob : bytes) : Exception + string :=
  match Image_open w blob with
  | inl e => inl e
  | inr img => image_to_string w img
  end.

(** The text the Image-Text Extractor yields for an image. *)
Definition image_text (blob : bytes) : string :=
  match ocr_outcome blob with
  | inr text => Str.strip text
  | inl _ => EmptyString
  end.

(** The events of one OCR attempt. *)
Definition image_trace (blob : bytes) : Trace :=
  match Image_open w blob with
  | inl e => [EvImageOpen blob; EvPrint (ocr_warning e)]
  | inr img =>
      match image_to_string w img with
      | inl e => [EvImageOpen blob; EvImageToString; EvPrint (ocr_warning e)]
      | inr _ => [EvImageOpen blob; EvImageToString]
      end
  end.

Definition text_fragments (shape : Shape) : list string :=
  match text_frame shape with
  | Some text => [text]
  | None => []
  end.

(** Cell texts in row-major order. *)
Definition table_fragments (shape : Shape) : list string :=
  match table shape with
  | Some rows => List.concat rows
  | None => []
  end.

Definition image_fragments (shape : Shape) : list string :=
  match image shape with
  | Embedded blob =>
      if Str.truthy (image_text blob)
      then [ocr_fragment (image_text blob)]
      else []
  | _ => []
  end.

(** What one shape contributes: text frame, then table, then image. *)
Definition shape_fragments (shape : Shape) : list string :=
  (text_fragments shape ++ table_fragments shape ++ image_fragments shape)%list.

(** The newline-join of the non-empty fragments of a slide. *)
Definition slide_entry (slide : Slide) : string :=
  Str.join Str.nl
    (Str.filter_None (flat_map shape_fragments (shapes slide))).

Definition shape_trace (shape : Shape) : Trace :=
  match image shape with
  | Embedded blob => image_trace blob
  | _ => []
  end.

Fixpoint count_images (shape_list : list Shape) : Z :=
  match shape_list with
  | [] => 0
  | shape :: rest =>
      match image shape with
      | Embedded _ => 1 + count_images rest
      | _ => count_images rest
      end
  end.

Definition slide_trace (i : Z) (slide : Slide) : Trace :=
  (flat_map shape_trace (shapes slide)
   ++ [EvPrint (slide_progress (count_images (shapes slide)) (i + 1))])%list.

Definition slides_trace (i : Z) (deck_slides : list Slide) : Trace :=
  flat_map (fun '(i, slide) => slide_trace i slide)
    (enumerate_from i deck_slides).

(** The entries of the slides numbered from [i + 1]. *)
Definition entries_from (i : Z) (deck_slides : list Slide) : dict string :=
  map (fun '(i, slide) => (i + 1, slide_entry slide))
    (enumerate_from i deck_slides).

(** The images of a deck. *)
Definition slide_images (slide : Slide) : list bytes :=
  flat_map (fun shape => match image shape with
                         | Embedded blob => [blob]
                         | _ => []
                         end) (shapes slide).

(** Call, then read [response.text]. *)
Definition service_outcome (prompt : string) : Exception + string :=
  match generate_content w prompt with
  | inl e => inl e
  | inr response => response_text w response
  end.

(** What the analyzer hands back for a prompt. *)
Definition analysis_report (prompt : string) : string :=
  match service_outcome prompt with
  | inr answer => answer
  | inl e => analysis_error e
  end.

End Denotation.

Definition deck_images (deck : Deck) : list bytes :=
  flat_map slide_images (slides deck).

(** Events by kind. *)
Definition is_network_call (ev : Event) : bool :=
  match ev with
  | EvGenerateContent _ => true
  | _ => false
  end.

Definition is_open_or_parse (ev : Event) : bool :=
  match ev with
  | EvPresentation _ => true
  | _ => false
  end.

(** Anything that touches the input deck or works on its content. *)
Definition is_file_io (ev : Event) : bool :=
  match ev with
  | EvPathExists _ | EvPresentation _ | EvImageOpen _ | EvImageToString => true
  | _ => false
  end.

Definition none_of (kind : Event -> bool) (t : Trace) : Prop :=
  forall ev, In ev t -> kind ev = false.

(** The line [main] prints for an exception. *)
Definition error_line (e : Exception) : string :=
  match exc_class e with
  | FileNotFoundError | ValueError => "[!] Error: " ++ exc_str e
  | OtherError _ => "[!] An unexpected error occurred: " ++ exc_str e
  end.

(** ** A small world to run the program in *)

Module Demo.

Definition picture (blob : bytes) : Shape := mkShape None None (Embedded blob).

(** Five slides: a captioned table with a picture, an empty slide, a slide
    with one readable picture, one with a blank picture and one with a
    picture that cannot be decoded. *)
Definition deck : Deck :=
  mkDeck
    [ mkSlide [ mkShape (Some "Title")
                        (Some [["a"; "b"]; [EmptyString; "d"]])
                        (Embedded [x41]) ];
      mkSlide [];
      mkSlide [ picture [x41] ];
      mkSlide [ picture [x20] ];
      mkSlide [ picture [x00] ] ].

(** What the parser library raises for a picture that links to its image. *)
Definition no_embedded_image : Exception :=
  mkExc ValueError "no embedded image".

(** Three slides, the second with a captioned picture that is linked, not
    embedded. *)
Definition linked_deck : Deck :=
  mkDeck
    [ mkSlide [ mkShape (Some "Intro") None NoImage ];
      mkSlide [ mkShape (Some "Chart") None (ImageRaises no_embedded_image) ];
      mkSlide [ mkShape (Some "Summary") None NoImage ] ].

Definition package_not_found : Exception :=
  mkExc (OtherError "PackageNotFoundError") "Package not found at 'notes.txt'".

Definition unidentified_image : Exception :=
  mkExc (OtherError "UnidentifiedImageError") "cannot identify image file".

Definition unreachable : Exception :=
  mkExc (OtherError "ServiceUnavailable") "503 service unavailable".

(** [deck.pptx] and [linked.pptx] are decks, [notes.txt] exists but is no
    deck, nothing else exists.  The first answer of the service is the fixed
    sentence. *)
Definition world (api_key : option string) (online : bool) : World :=
  {| GEMINI_API_KEY := api_key;
     os_path_exists := fun path =>
       (String.eqb path "deck.pptx" || String.eqb path "linked.pptx"
        || String.eqb path "notes.txt")%bool;
     Presentation := fun path =>
       if String.eqb path "deck.pptx" then inr deck
       else if String.eqb path "linked.pptx" then inr linked_deck
       else inl package_not_found;
     DecodedImage := bytes;
     Image_open := fun blob =>
       match blob with
       | [x00] => inl unidentified_image
       | _ => inr blob
       end;
     image_to_string := fun img =>
       match img with
       | [x41] => inr ("  ABC" ++ Str.nl)
       | _ => inr "   "
       end;
     Response := string;
     generate_content := fun prompt =>
       if online then inr "No inconsistencies were found in the presentation."
       else inl unreachable;
     response_text := fun response => inr response |}.

Definition AB : dict string := [(1, "A"); (2, "B")].

End Demo.

(** ** Further vocabulary for statements about runs *)

(** Events that reach the inference client. *)
Definition is_service_event (ev : Event) : bool :=
  match ev with
  | EvConfigure _ | EvGenerativeModel _ | EvGenerateContent _ => true
  | _ => false
  end.

(** What the slide loop can emit: progress and warning lines and the two
    OCR calls. *)
Definition is_loop_event (ev : Event) : bool :=
  match ev with
  | EvPrint _ | EvImageOpen _ | EvImageToString => true
  | _ => false
  end.

Definition is_image_open (ev : Event) : bool :=
  match ev with
  | EvImageOpen _ => true
  | _ => false
  end.

(** The slide with the image data of every shape taken away. *)
Definition without_images (slide : Slide) : Slide :=
  mkSlide (map (fun shape => mkShape (text_frame shape) (table shape) NoImage)
               (shapes slide)).


(** The lines [main] prints once the analyzer has returned [report]. *)
Definition report_lines (report : string) : Trace :=
  [EvPrint ("[+] Analysis Complete." ++ Str.nl);
   EvPrint banner;
   EvPrint "      AI Inconsistency Report";
   EvPrint banner;
   EvPrint report].

(** *** Where the loops stop

    An image lookup that raises ends the shape loop, the slide loop and
    [extract_data_from_pptx] at once. *)

(** The exception that ends a shape loop, if any: that of the first image
    lookup that raises. *)
Fixpoint shapes_stop (shape_list : list Shape) : option Exception :=
  match shape_list with
  | [] => None
  | shape :: rest =>
      match image shape with
      | ImageRaises e => Some e
      | _ => shapes_stop rest
      end
  end.

(** The shapes whose loop body runs to its end. *)
Fixpoint shapes_done (shape_list : list Shape) : list Shape :=
  match shape_list with
  | [] => []
  | shape :: rest =>
      match image shape with
      | ImageRaises _ => []
      | _ => shape :: shapes_done rest
      end
  end.

Fixpoint slides_stop (deck_slides : list Slide) : option Exception :=
  match deck_slides with
  | [] => None
  | slide :: rest =>
      match shapes_stop (shapes slide) with
      | Some e => Some e
      | None => slides_stop rest
      end
  end.

(** The slides whose loop body runs to its end. *)
Fixpoint slides_done (deck_slides : list Slide) : list Slide :=
  match deck_slides with
  | [] => []
  | slide :: rest =>
      match shapes_stop (shapes slide) with
      | Some _ => []
      | None => slide :: slides_done rest
      end
  end.

(** The shapes gone through on the slide where the loop stops. *)
Fixpoint last_shapes (deck_slides : list Slide) : list Shape :=
  match deck_slides with
  | [] => []
  | slide :: rest =>
      match shapes_stop (shapes slide) with
      | Some _ => shapes_done (shapes slide)
      | None => last_shapes rest
      end
  end.

(** The events of the slide loop, stopped or not. *)
Definition loop_trace (w : World) (i : Z) (deck_slides : list Slide) : Trace :=
  (slides_trace w i (slides_done deck_slides)
   ++ flat_map (shape_trace w) (last_shapes deck_slides))%list.

(** What [main] emits up to the end of the slide loop on a deck that
    parses. *)
Definition extraction_events (w : World) (pptx_file api_key : string)
           (deck : Deck) : Trace :=
  ([EvConfigure api_key;
    EvPrint ("[+] Starting analysis of '" ++ pptx_file ++ "'...");
    EvPathExists pptx_file; EvPresentation pptx_file;
    EvPrint ("[+] Extracting text from "
             ++ Str.of_int (len (slides deck)) ++ " slides...")]
     ++ loop_trace w 0 (slides deck))%list.

(** The images the loops get to. *)
Definition attempted_images (deck_slides : list Slide) : list bytes :=
  (flat_map slide_images (slides_done deck_slides)
   ++ slide_images (mkSlide (last_shapes deck_slides)))%list.

(** *** The entry of a slide in the specification's words

    Written without the helpers of the program, to be compared with what the
    program computes. *)

(** Empty fragments are skipped. *)
Fixpoint skip_empty (fragments : list string) : list string :=
  match fragments with
  | [] => []
  | EmptyString :: rest => skip_empty rest
  | String c s :: rest => String c s :: skip_empty rest
  end.

(** Fragments joined with newlines. *)
Fixpoint join_lines (fragments : list string) : string :=
  match fragments with
  | [] => EmptyString
  | [fragment] => fragment
  | fragment :: rest => fragment ++ String "010"%char (join_lines rest)
  end.

(** The OCR text of an image, when there is any, under its label line. *)
Definition labelled_ocr_text (w : World) (shape : Shape) : list string :=
  match image shape with
  | Embedded blob =>
      match image_text w blob with
      | EmptyString => []
      | String c s => ["[OCR Text from Image]:" ++ String "010"%char (String c s)]
      end
  | _ => []
  end.

(** Text frame, then table cells row by row, then the image. *)
Definition fragments_of_shape (w : World) (shape : Shape) : list string :=
  ((match text_frame shape with
    | Some text => [text]
    | None => []
    end)
   ++ (match table shape with
       | Some rows => List.concat rows
       | None => []
       end)
   ++ labelled_ocr_text w shape)%list.

Definition joined_fragments (w : World) (slide : Slide) : string :=
  join_lines (skip_empty (flat_map (fragments_of_shape w) (shapes slide))).

(** ** Strings: trimming *)

Module StrFacts.
Import Str.

Lemma append_assoc (a b c : string) : (a ++ b) ++ c = a ++ b ++ c.
Proof.
  induction a as [|x a IH]; simpl; [reflexivity | now rewrite IH].
Qed.

Lemma lstrip_split (s : string) :
  exists pre, s = pre ++ lstrip s /\ all_space pre = true.
Proof.
  induction s as [|c rest IH]; simpl.
  - exists EmptyString. split; reflexivity.
  - destruct (isspace c) eqn:Hc.
    + destruct IH as [pre [Heq Hpre]].
      exists (String c pre). simpl. rewrite Hc, Hpre, <- Heq. split; reflexivity.
    + exists EmptyString. split; reflexivity.
Qed.

Lemma rstrip_split (s : string) :
  exists post, s = rstrip s ++ post /\ all_space post = true.
Proof.
  induction s as [|c rest IH]; simpl.
  - exists EmptyString. split; reflexivity.
  - destruct IH as [post [Heq Hpost]].
    destruct (rstrip rest) as [|c' kept] eqn:Hr.
    + simpl in Heq. subst post.
      destruct (isspace c) eqn:Hc.
      * exists (String c rest). simpl. rewrite Hc, Hpost. split; reflexivity.
      * exists rest. simpl. split; [reflexivity | assumption].
    + exists post. simpl. split; [|assumption].
      f_equal. exact Heq.
Qed.

Lemma lstrip_first (s : string) (c : ascii) :
  first_char (lstrip s) = Some c -> isspace c = false.
Proof.
  induction s as [|c0 rest IH]; simpl; [discriminate|].
  destruct (isspace c0) eqn:Hc0; [exact IH|].
  simpl. intros H. injection H as <-. exact Hc0.
Qed.

Lemma rstrip_last (s : string) (c : ascii) :
  last_char (rstrip s) = Some c -> isspace c = false.
Proof.
  induction s as [|c0 rest IH]; simpl; [discriminate|].
  destruct (rstrip rest) as [|c' kept] eqn:Hr.
  - destruct (isspace c0) eqn:Hc0; simpl; [discriminate|].
    intros H. injection H as <-. exact Hc0.
  - intros H. apply IH. exact H.
Qed.

Lemma rstrip_first_inv (s : string) (c : ascii) :
  first_char (rstrip s) = Some c -> first_char s = Some c.
Proof.
  destruct s as [|c0 rest]; simpl; [discriminate|].
  destruct (rstrip rest); [destruct (isspace c0)|]; simpl; congruence.
Qed.

Lemma strip_trimmed (s : string) : trimmed (strip s).
Proof.
  unfold trimmed, strip. split; intros c H.
  - apply rstrip_first_inv in H. now apply lstrip_first in H.
  - now apply rstrip_last in H.
Qed.

Lemma strip_split (s : string) :
  exists pre post,
    s = pre ++ strip s ++ post /\ all_space pre = true /\ all_space post = true.
Proof.
  destruct (lstrip_split s) as [pre [Hs Hpre]].
  destruct (rstrip_split (lstrip s)) as [post [Hl Hpost]].
  exists pre, post. unfold strip. rewrite <- Hl, <- Hs. auto.
Qed.

End StrFacts.

(** ** Dictionaries *)

Lemma setitem_fresh {V} (d : dict V) (k : Z) (v : V) :
  (forall k', In k' (keys d) -> k' < k) ->
  setitem d k v = (d ++ [(k, v)])%list.
Proof.
  induction d as [|[k0 v0] rest IH]; simpl; intros Hlt; [reflexivity|].
  destruct (Z.eqb_spec k k0) as [->|_].
  - specialize (Hlt k0 (or_introl eq_refl)). lia.
  - rewrite IH; [reflexivity|]. intros k' Hin. apply Hlt. now right.
Qed.

Lemma getitem_app_l {V} (d later : dict V) (k : Z) (v : V) :
  getitem d k = Some v -> getitem (d ++ later)%list k = Some v.
Proof.
  induction d as [|[k0 v0] rest IH]; simpl; [discriminate|].
  destruct (k =? k0); [trivial | exact IH].
Qed.

Lemma getitem_in_keys {V} (d : dict V) (k : Z) :
  In k (keys d) <-> getitem d k <> None.
Proof.
  induction d as [|[k0 v0] rest IH]; simpl.
  - split; [intros [] | congruence].
  - destruct (Z.eqb_spec k k0) as [->|Hne].
    + split; [discriminate | auto].
    + rewrite <- IH. split; [intros [?|?]; congruence | auto].
Qed.

(** ** Running the loops *)

Lemma for_each_app {A S} (xs ys : list A) (body : A -> S -> M S) (acc : S)
      (t : Trace) :
  for_each (xs ++ ys)%list body acc t =
  (acc' <- for_each xs body acc ;; for_each ys body acc') t.
Proof.
  revert acc t. induction xs as [|x rest IH]; intros acc t; simpl.
  - reflexivity.
  - unfold bind in *.
    destruct (body x acc t) as [t' [e|acc']]; [reflexivity | apply IH].
Qed.

Lemma enumerate_from_app {A} (xs ys : list A) (start : Z) :
  enumerate_from start (xs ++ ys)%list =
  (enumerate_from start xs ++ enumerate_from (start + len xs) ys)%list.
Proof.
  revert start. induction xs as [|x rest IH]; intros start; simpl.
  - unfold len. simpl. now rewrite Z.add_0_r.
  - rewrite IH. do 3 f_equal. unfold len. simpl List.length. lia.
Qed.

Lemma fold_append (texts row : list string) :
  fold_left (fun acc cell => append acc cell) row texts = (texts ++ row)%list.
Proof.
  revert texts. induction row as [|cell rest IH]; intros texts; simpl.
  - now rewrite app_nil_r.
  - rewrite IH. unfold append. now rewrite <- app_assoc.
Qed.

Lemma append_rows_concat (texts : list string) (rows : list (list string)) :
  append_rows texts rows = (texts ++ List.concat rows)%list.
Proof.
  unfold append_rows. revert texts.
  induction rows as [|row rest IH]; intros texts; simpl.
  - now rewrite app_nil_r.
  - rewrite fold_append, IH. now rewrite <- app_assoc.
Qed.

Lemma shapes_done_all (shape_list : list Shape) :
  shapes_stop shape_list = None -> shapes_done shape_list = shape_list.
Proof.
  induction shape_list as [|shape rest IH]; simpl; [reflexivity|].
  destruct (image shape); intros Hstop; try discriminate; now rewrite IH.
Qed.

Lemma slides_done_all (deck_slides : list Slide) :
  slides_stop deck_slides = None ->
  slides_done deck_slides = deck_slides /\ last_shapes deck_slides = [].
Proof.
  induction deck_slides as [|slide rest IH]; simpl; [auto|].
  destruct (shapes_stop (shapes slide)); intros Hstop; [discriminate|].
  destruct (IH Hstop) as [Hdone Hlast]. now rewrite Hdone, Hlast.
Qed.

Section Runs.

Variable w : World.

Lemma extract_text_from_image_run (blob : bytes) (t : Trace) :
  extract_text_from_image w blob t =
  ((t ++ image_trace w blob)%list, inr (image_text w blob)).
Proof.
  unfold extract_text_from_image, try_except, bind, call, print, emit, ret.
  unfold image_trace, image_text, ocr_outcome.
  destruct (Image_open w blob) as [e|img]; simpl.
  - now rewrite <- app_assoc.
  - destruct (image_to_string w img) as [e|text]; simpl;
      repeat rewrite <- app_assoc; reflexivity.
Qed.

(** One shape: the image lookup either raises, before any event, or the
    body runs to its end. *)
Lemma shape_body_run (shape : Shape) (texts : list string) (n : Z) (t : Trace) :
  shape_body w shape (texts, n) t =
  match image shape with
  | ImageRaises e => (t, inl e)
  | _ =>
      ((t ++ shape_trace w shape)%list,
       inr ((texts ++ shape_fragments w shape)%list,
            n + count_images [shape]))
  end.
Proof.
  unfold shape_body, shape_fragments, shape_trace.
  unfold text_fragments, table_fragments, image_fragments. simpl.
  destruct (text_frame shape) as [text|];
    destruct (table shape) as [rows|];
    destruct (image shape) as [|blob|e];
    unfold bind, ret, raise; try rewrite extract_text_from_image_run;
    try rewrite append_rows_concat; unfold append;
    try destruct (Str.truthy (image_text w blob));
    repeat rewrite <- app_assoc; simpl;
    repeat rewrite app_nil_r; repeat rewrite Z.add_0_r; reflexivity.
Qed.

Lemma shapes_loop_run (shape_list : list Shape) (texts : list string) (n : Z)
      (t : Trace) :
  for_each shape_list (shape_body w) (texts, n) t =
  ((t ++ flat_map (shape_trace w) (shapes_done shape_list))%list,
   match shapes_stop shape_list with
   | Some e => inl e
   | None =>
       inr ((texts ++ flat_map (shape_fragments w) shape_list)%list,
            n + count_images shape_list)
   end).
Proof.
  revert texts n t.
  induction shape_list as [|shape rest IH]; intros texts n t;
    cbn [for_each flat_map shapes_done shapes_stop].
  - unfold ret. simpl. now rewrite !app_nil_r, Z.add_0_r.
  - unfold bind. rewrite shape_body_run.
    destruct (image shape) as [|blob|e] eqn:Himage.
    + rewrite IH. cbn [flat_map]. rewrite <- !app_assoc.
      destruct (shapes_stop rest); [reflexivity|].
      do 3 f_equal. cbn [count_images]. rewrite Himage. lia.
    + rewrite IH. cbn [flat_map]. rewrite <- !app_assoc.
      destruct (shapes_stop rest); [reflexivity|].
      do 3 f_equal. cbn [count_images]. rewrite Himage. lia.
    + simpl. now rewrite app_nil_r.
Qed.

Lemma slide_body_run (i : Z) (slide : Slide) (d : dict string) (t : Trace) :
  slide_body w (i, slide) d t =
  match shapes_stop (shapes slide) with
  | Some e =>
      ((t ++ flat_map (shape_trace w) (shapes_done (shapes slide)))%list, inl e)
  | None =>
      ((t ++ slide_trace w i slide)%list,
       inr (setitem d (i + 1) (slide_entry w slide)))
  end.
Proof.
  unfold slide_body, slide_trace, slide_entry, bind.
  rewrite shapes_loop_run.
  destruct (shapes_stop (shapes slide)) eqn:Hstop; [reflexivity|].
  rewrite (shapes_done_all _ Hstop). simpl.
  unfold print, emit, ret. now rewrite <- app_assoc.
Qed.

Lemma slides_loop_run (deck_slides : list Slide) (i : Z) (d : dict string)
      (t : Trace) :
  (forall k, In k (keys d) -> k <= i) ->
  for_each (enumerate_from i deck_slides) (slide_body w) d t =
  ((t ++ loop_trace w i deck_slides)%list,
   match slides_stop deck_slides with
   | Some e => inl e
   | None => inr (d ++ entries_from w i deck_slides)%list
   end).
Proof.
  unfold loop_trace. revert i d t.
  induction deck_slides as [|slide rest IH]; intros i d t Hkeys;
    cbn [for_each enumerate_from slides_stop slides_done last_shapes].
  - unfold ret, slides_trace, entries_from. simpl. now rewrite !app_nil_r.
  - unfold bind. rewrite slide_body_run.
    destruct (shapes_stop (shapes slide)) as [e|] eqn:Hstop; [reflexivity|].
    rewrite setitem_fresh
      by (intros k Hin; specialize (Hkeys k Hin); lia).
    rewrite IH.
    + unfold slides_trace, entries_from. cbn [enumerate_from flat_map map].
      rewrite <- !app_assoc.
      destruct (slides_stop rest); reflexivity.
    + intros k Hin. unfold keys in Hin. rewrite map_app in Hin.
      apply in_app_or in Hin. destruct Hin as [Hin|Hin].
      * specialize (Hkeys k Hin). lia.
      * simpl in Hin. destruct Hin as [<-|[]]. lia.
Qed.

Lemma extract_loop_run (deck_slides : list Slide) (t : Trace) :
  extract_loop w deck_slides t =
  ((t ++ loop_trace w 0 deck_slides)%list,
   match slides_stop deck_slides with
   | Some e => inl e
   | None => inr (entries_from w 0 deck_slides)
   end).
Proof.
  unfold extract_loop. rewrite slides_loop_run; [reflexivity|].
  intros k [].
Qed.

Lemma extract_run (pptx_path : string) (deck : Deck) (t : Trace) :
  os_path_exists w pptx_path = true ->
  Presentation w pptx_path = inr deck ->
  extract_data_from_pptx w pptx_path t =
  ((t ++ [EvPathExists pptx_path; EvPresentation pptx_path;
          EvPrint ("[+] Extracting text from "
                   ++ Str.of_int (len (slides deck)) ++ " slides...")]
      ++ loop_trace w 0 (slides deck))%list,
   match slides_stop (slides deck) with
   | Some e => inl e
   | None => inr (entries_from w 0 (slides deck))
   end).
Proof.
  intros Hexists Hparse.
  unfold extract_data_from_pptx, bind, call, print, emit.
  rewrite Hexists, Hparse. simpl.
  fold (extract_loop w (slides deck)). rewrite extract_loop_run.
  now rewrite <- !app_assoc.
Qed.

Lemma analyze_run (all_slides_text : string) (t : Trace) :
  analyze_text_with_gemini w all_slides_text t =
  ((t ++ [EvGenerativeModel "gemini-1.5-flash-latest";
          EvGenerateContent (prompt_head ++ all_slides_text ++ prompt_tail)])%list,
   inr (analysis_report w (prompt_head ++ all_slides_text ++ prompt_tail))).
Proof.
  unfold analyze_text_with_gemini, analysis_report, service_outcome.
  unfold bind, try_except, emit, call, lift, ret.
  destruct (generate_content w (prompt_head ++ all_slides_text ++ prompt_tail))
    as [e|response]; rewrite <- app_assoc; simpl; [reflexivity|].
  destruct (response_text w response); reflexivity.
Qed.

Lemma loop_trace_loop_events (i : Z) (deck_slides : list Slide) (ev : Event) :
  In ev (loop_trace w i deck_slides) -> is_loop_event ev = true.
Proof.
  assert (Hshape : forall shape, In ev (shape_trace w shape) ->
                                 is_loop_event ev = true).
  { intros shape Hin. unfold shape_trace, image_trace in Hin.
    destruct (image shape) as [|blob|e]; try destruct Hin.
    destruct (Image_open w blob) as [e|img];
      [|destruct (image_to_string w img)];
      repeat (destruct Hin as [<-|Hin]; [reflexivity|]); destruct Hin. }
  unfold loop_trace. intros Hin.
  apply in_app_or in Hin. destruct Hin as [Hin|Hin].
  - unfold slides_trace in Hin. apply in_flat_map in Hin.
    destruct Hin as [[j slide] [_ Hin]]. unfold slide_trace in Hin.
    apply in_app_or in Hin. destruct Hin as [Hin|[<-|[]]]; [|reflexivity].
    apply in_flat_map in Hin. destruct Hin as [shape [_ Hin]].
    now apply (Hshape shape).
  - apply in_flat_map in Hin. destruct Hin as [shape [_ Hin]].
    now apply (Hshape shape).
Qed.

(** *** The runs of [main], stage by stage *)

Lemma main_unconfigured (pptx_file : string) (t : Trace) :
  GEMINI_API_KEY w = None \/ GEMINI_API_KEY w = Some EmptyString ->
  main w pptx_file t =
  ((t ++ [EvPrint ("[!] Error: " ++ exc_str config_error)])%list, inr tt).
Proof.
  intros [Hkey|Hkey]; unfold main, try_except, bind, configure_ai;
    rewrite Hkey; reflexivity.
Qed.

Lemma main_stopped (pptx_file : string) (c : ascii) (key : string)
      (deck : Deck) (e : Exception) (t : Trace) :
  GEMINI_API_KEY w = Some (String c key) ->
  os_path_exists w pptx_file = true ->
  Presentation w pptx_file = inr deck ->
  slides_stop (slides deck) = Some e ->
  main w pptx_file t =
  ((t ++ extraction_events w pptx_file (String c key) deck
      ++ [EvPrint (error_line e)])%list,
   inr tt).
Proof.
  intros Hkey Hexists Hparse Hstop.
  unfold main, try_except, bind, configure_ai. rewrite Hkey.
  unfold print, emit.
  rewrite (extract_run _ deck _ Hexists Hparse). rewrite Hstop.
  unfold report_error, error_line, print, emit, extraction_events.
  destruct (exc_class e);
    repeat (rewrite <- app_assoc; cbn [app]); reflexivity.
Qed.

Lemma main_parsed (pptx_file : string) (c : ascii) (key : string)
      (deck : Deck) (t : Trace) :
  GEMINI_API_KEY w = Some (String c key) ->
  os_path_exists w pptx_file = true ->
  Presentation w pptx_file = inr deck ->
  slides_stop (slides deck) = None ->
  main w pptx_file t =
  ((t ++ (extraction_events w pptx_file (String c key) deck
            ++ [EvPrint "[+] Extraction complete. Consolidating text for analysis.";
                EvPrint "[+] Sending data to AI for inconsistency analysis...";
                EvGenerativeModel "gemini-1.5-flash-latest"])
      ++ [EvGenerateContent
            (prompt_head ++ consolidate (entries_from w 0 (slides deck))
               ++ prompt_tail)]
      ++ report_lines
           (analysis_report w
              (prompt_head ++ consolidate (entries_from w 0 (slides deck))
                 ++ prompt_tail)))%list,
   inr tt).
Proof.
  intros Hkey Hexists Hparse Hstop.
  unfold main, try_except, bind, configure_ai. rewrite Hkey.
  unfold print, emit.
  rewrite (extract_run _ deck _ Hexists Hparse). rewrite Hstop.
  rewrite analyze_run. unfold report_lines, extraction_events. f_equal.
  repeat (rewrite <- app_assoc; cbn [app]). reflexivity.
Qed.

Lemma extraction_events_quiet (pptx_file api_key : string) (deck : Deck)
      (ev : Event) :
  In ev (extraction_events w pptx_file api_key deck) ->
  is_network_call ev = false.
Proof.
  unfold extraction_events. intros Hin.
  repeat (destruct Hin as [<-|Hin]; [reflexivity|]).
  apply loop_trace_loop_events in Hin. now destruct ev.
Qed.

End Runs.

(** ** Ranges and the entries of a deck *)

Lemma in_range_from (k start : Z) (count : nat) :
  In k (range_from start count) <-> start <= k < start + Z.of_nat count.
Proof.
  revert start. induction count as [|count IH]; intros start; simpl.
  - split; [intros [] | lia].
  - rewrite IH. lia.
Qed.

Lemma NoDup_range_from (start : Z) (count : nat) :
  NoDup (range_from start count).
Proof.
  revert start. induction count as [|count IH]; intros start; simpl.
  - constructor.
  - constructor; [|apply IH]. rewrite in_range_from. lia.
Qed.

Lemma keys_entries_from (w : World) (i : Z) (deck_slides : list Slide) :
  keys (entries_from w i deck_slides) =
  range_from (i + 1) (List.length deck_slides).
Proof.
  unfold keys, entries_from. revert i.
  induction deck_slides as [|slide rest IH]; intros i; simpl.
  - reflexivity.
  - now rewrite IH.
Qed.

Lemma length_entries_from (w : World) (i : Z) (deck_slides : list Slide) :
  List.length (entries_from w i deck_slides) = List.length deck_slides.
Proof.
  unfold entries_from. rewrite length_map. revert i.
  induction deck_slides as [|slide rest IH]; intros i; simpl; [|rewrite IH];
    reflexivity.
Qed.

Lemma getitem_entries_from (w : World) (deck_slides : list Slide) (i : Z)
      (k : nat) (slide : Slide) :
  nth_error deck_slides k = Some slide ->
  getitem (entries_from w i deck_slides) (i + Z.of_nat k + 1) =
  Some (slide_entry w slide).
Proof.
  unfold entries_from. revert i k.
  induction deck_slides as [|first rest IH]; intros i k Hnth.
  - destruct k; discriminate.
  - destruct k as [|k]; simpl in *.
    + injection Hnth as ->.
      replace (i + 0 + 1 =? i + 1) with true by (symmetry; apply Z.eqb_eq; lia).
      reflexivity.
    + replace (i + Z.pos (Pos.of_succ_nat k) + 1 =? i + 1) with false
        by (symmetry; apply Z.eqb_neq; lia).
      replace (i + Z.pos (Pos.of_succ_nat k) + 1) with (i + 1 + Z.of_nat k + 1)
        by lia.
      now apply IH.
Qed.

Lemma map_items_by_key {B} (h : Z -> string -> B) (d : dict string) :
  NoDup (keys d) ->
  map (fun '(num, text) => h num text) d =
  map (fun k => h k (text_at d k)) (keys d).
Proof.
  induction d as [|[k0 v0] rest IH]; simpl; intros Hnd; [reflexivity|].
  inversion Hnd as [|? ? Hnotin Hrest]; subst.
  unfold text_at at 1. simpl. rewrite Z.eqb_refl. f_equal.
  rewrite IH by assumption. apply map_ext_in.
  intros k Hin. unfold text_at. simpl.
  destruct (Z.eqb_spec k k0) as [->|_]; [contradiction | reflexivity].
Qed.

(** An entry reads the world only through the text of the slide's images. *)
Lemma slide_entry_ext (w1 w2 : World) (slide : Slide) :
  (forall blob, In blob (slide_images slide) ->
                image_text w1 blob = image_text w2 blob) ->
  slide_entry w1 slide = slide_entry w2 slide.
Proof.
  unfold slide_entry, slide_images. intros Hsame. do 2 f_equal.
  induction (shapes slide) as [|shape rest IH]; simpl in *; [reflexivity|].
  rewrite IH by (intros blob Hin; apply Hsame, in_or_app; now right).
  f_equal. unfold shape_fragments, image_fragments. do 2 f_equal.
  destruct (image shape) as [|blob|e]; try reflexivity.
  rewrite (Hsame blob) by (apply in_or_app; left; now left). reflexivity.
Qed.

Lemma entries_from_ext (w1 w2 : World) (i : Z) (deck_slides : list Slide) :
  (forall blob, In blob (flat_map slide_images deck_slides) ->
                image_text w1 blob = image_text w2 blob) ->
  entries_from w1 i deck_slides = entries_from w2 i deck_slides.
Proof.
  unfold entries_from. revert i.
  induction deck_slides as [|slide rest IH]; intros i Hsame; simpl in *;
    [reflexivity|].
  rewrite IH by (intros blob Hin; apply Hsame, in_or_app; now right).
  rewrite (slide_entry_ext w1 w2 slide)
    by (intros blob Hin; apply Hsame, in_or_app; now left).
  reflexivity.
Qed.

Lemma slides_stop_app (xs ys : list Slide) :
  slides_stop (xs ++ ys)%list =
  match slides_stop xs with
  | Some e => Some e
  | None => slides_stop ys
  end.
Proof.
  induction xs as [|slide rest IH]; simpl; [reflexivity|].
  destruct (shapes_stop (shapes slide)); [reflexivity | exact IH].
Qed.

(** *** The program's join against the specification's *)

Lemma filter_None_skip_empty (fragments : list string) :
  Str.filter_None fragments = skip_empty fragments.
Proof.
  unfold Str.filter_None.
  induction fragments as [|fragment rest IH]; simpl; [reflexivity|].
  destruct fragment; simpl; now rewrite IH.
Qed.

Lemma join_nl_lines (fragments : list string) :
  Str.join Str.nl fragments = join_lines fragments.
Proof.
  induction fragments as [|fragment rest IH]; [reflexivity|].
  destruct rest as [|next rest']; [reflexivity|].
  change (Str.join Str.nl (fragment :: next :: rest'))
    with (fragment ++ Str.nl ++ Str.join Str.nl (next :: rest')).
  rewrite IH. reflexivity.
Qed.

Lemma shape_fragments_spec (w : World) (shape : Shape) :
  shape_fragments w shape = fragments_of_shape w shape.
Proof.
  unfold shape_fragments, fragments_of_shape, text_fragments, table_fragments,
    image_fragments, labelled_ocr_text.
  do 2 f_equal. destruct (image shape) as [|blob|e]; try reflexivity.
  destruct (image_text w blob); reflexivity.
Qed.

Lemma slide_entry_spec (w : World) (slide : Slide) :
  slide_entry w slide = joined_fragments w slide.
Proof.
  unfold slide_entry, joined_fragments.
  rewrite join_nl_lines, filter_None_skip_empty. do 2 f_equal.
  apply flat_map_ext. intros shape. apply shape_fragments_spec.
Qed.

(** ** The claims *)

(** C1.  The claim does not hold of the code.  On a deck that the parser
    accepts but in which the image lookup of some shape raises (a picture
    that links to its image), [extract_data_from_pptx] raises that exception
    out of both loops: it returns no mapping, so no slide gets an entry, and
    [main] prints the error line and never calls the service. *)
Theorem image_lookup_error_aborts_extraction
        (w : World) (pptx_path : string) (deck : Deck) (e : Exception)
        (t : Trace) :
  os_path_exists w pptx_path = true ->
  Presentation w pptx_path = inr deck ->
  slides_stop (slides deck) = Some e ->
  snd (extract_data_from_pptx w pptx_path t) = inl e /\
  (forall slide_data,
      snd (extract_data_from_pptx w pptx_path t) <> inr slide_data) /\
  (forall c key,
      GEMINI_API_KEY w = Some (String c key) ->
      exists added,
        main w pptx_path t =
        ((t ++ added ++ [EvPrint (error_line e)])%list, inr tt) /\
        none_of is_network_call added).
Proof.
  intros Hexists Hparse Hstop.
  assert (Hrun : snd (extract_data_from_pptx w pptx_path t) = inl e)
    by (rewrite (extract_run w _ deck _ Hexists Hparse), Hstop; reflexivity).
  split; [exact Hrun|]. split; [rewrite Hrun; discriminate|].
  intros c key Hkey.
  exists (extraction_events w pptx_path (String c key) deck).
  split; [now apply main_stopped|].
  intros ev Hin. now apply extraction_events_quiet in Hin.
Qed.

Lemma image_lookup_error_aborts_extraction_witness :
  os_path_exists (Demo.world (Some "k") true) "linked.pptx" = true /\
  Presentation (Demo.world (Some "k") true) "linked.pptx" =
  inr Demo.linked_deck /\
  slides_stop (slides Demo.linked_deck) = Some Demo.no_embedded_image /\
  snd (extract_data_from_pptx (Demo.world (Some "k") true) "linked.pptx" []) =
  inl (mkExc ValueError "no embedded image") /\
  main (Demo.world (Some "k") true) "linked.pptx" [] =
  ([EvConfigure "k";
    EvPrint "[+] Starting analysis of 'linked.pptx'...";
    EvPathExists "linked.pptx";
    EvPresentation "linked.pptx";
    EvPrint "[+] Extracting text from 3 slides...";
    EvPrint "    - Extracted text from Slide 1";
    EvPrint "[!] Error: no embedded image"],
   inr tt).
Proof.
  split; [reflexivity|]. split; [reflexivity|]. split; [reflexivity|].
  split.
  - exact (proj1 (image_lookup_error_aborts_extraction
                    (Demo.world (Some "k") true) "linked.pptx"
                    Demo.linked_deck Demo.no_embedded_image []
                    eq_refl eq_refl eq_refl)).
  - reflexivity.
Defined.

(** C2.  Whenever extraction returns a mapping (it does when no image lookup
    raises), the entry of every slide is the newline-join of its non-empty
    fragments in shape order ([joined_fragments]): per shape the text-frame
    text, then the table cells row by row, then the labelled OCR text when
    the image extractor returns a non-empty string.  A slide whose only shape
    is an image without recognized text gets the empty string, and one whose
    image reads "ABC" gets the label line followed by "ABC". *)
Theorem slide_entry_joins_fragments
        (w : World) (pptx_path : string) (deck : Deck) (t : Trace) :
  os_path_exists w pptx_path = true ->
  Presentation w pptx_path = inr deck ->
  (slides_stop (slides deck) = None ->
   exists t' slide_data,
     extract_data_from_pptx w pptx_path t = (t', inr slide_data)) /\
  (forall blob t0,
      snd (extract_text_from_image w blob t0) = inr (image_text w blob)) /\
  (forall t' slide_data,
      extract_data_from_pptx w pptx_path t = (t', inr slide_data) ->
      (forall k slide,
          nth_error (slides deck) k = Some slide ->
          getitem slide_data (Z.of_nat k + 1) = Some (joined_fragments w slide)) /\
      (forall k blob,
          nth_error (slides deck) k =
          Some (mkSlide [mkShape None None (Embedded blob)]) ->
          snd (extract_text_from_image w blob []) = inr EmptyString ->
          getitem slide_data (Z.of_nat k + 1) = Some EmptyString) /\
      (forall k blob,
          nth_error (slides deck) k =
          Some (mkSlide [mkShape None None (Embedded blob)]) ->
          snd (extract_text_from_image w blob []) = inr "ABC" ->
          getitem slide_data (Z.of_nat k + 1) =
          Some ("[OCR Text from Image]:" ++ String "010"%char "ABC"))).
Proof.
  intros Hexists Hparse.
  split.
  { intros Hstop. eexists. eexists.
    rewrite (extract_run w _ deck _ Hexists Hparse), Hstop. reflexivity. }
  split; [intros blob t0; now rewrite extract_text_from_image_run|].
  intros t' slide_data Hrun.
  rewrite (extract_run w _ deck _ Hexists Hparse) in Hrun.
  destruct (slides_stop (slides deck)); [discriminate|].
  injection Hrun as _ <-.
  assert (Hentry : forall k slide,
             nth_error (slides deck) k = Some slide ->
             getitem (entries_from w 0 (slides deck)) (Z.of_nat k + 1) =
             Some (joined_fragments w slide)).
  { intros k slide Hnth. rewrite <- slide_entry_spec.
    apply (getitem_entries_from w _ 0 k slide Hnth). }
  split; [exact Hentry|].
  split; intros k blob Hnth Hocr; rewrite (Hentry _ _ Hnth);
    rewrite extract_text_from_image_run in Hocr; simpl in Hocr;
    injection Hocr as Hocr;
    unfold joined_fragments, fragments_of_shape, labelled_ocr_text; simpl;
    rewrite Hocr; reflexivity.
Qed.

Lemma slide_entry_joins_fragments_witness :
  os_path_exists (Demo.world None true) "deck.pptx" = true /\
  Presentation (Demo.world None true) "deck.pptx" = inr Demo.deck /\
  exists t' slide_data,
    extract_data_from_pptx (Demo.world None true) "deck.pptx" [] =
    (t', inr slide_data) /\
    getitem slide_data 1 =
    Some ("Title" ++ String "010"%char
            ("a" ++ String "010"%char
               ("b" ++ String "010"%char
                  ("d" ++ String "010"%char
                     ("[OCR Text from Image]:" ++ String "010"%char "ABC"))))) /\
    getitem slide_data 3 =
    Some ("[OCR Text from Image]:" ++ String "010"%char "ABC") /\
    getitem slide_data 4 = Some EmptyString.
Proof.
  split; [reflexivity|]. split; [reflexivity|].
  destruct (slide_entry_joins_fragments (Demo.world None true) "deck.pptx"
              Demo.deck [] eq_refl eq_refl)
    as [Hreturns [_ Hentries]].
  destruct (Hreturns eq_refl) as [t' [slide_data Hrun]].
  destruct (Hentries t' slide_data Hrun) as [Hentry [Hblank Hread]].
  exists t', slide_data. split; [exact Hrun|]. split; [|split].
  - exact (Hentry 0%nat _ eq_refl).
  - exact (Hread 2%nat [x41] eq_refl eq_refl).
  - exact (Hblank 3%nat [x20] eq_refl eq_refl).
Defined.

(** C3.  On a SlideTextMap (keys 1..N in insertion order) [consolidate] is
    the join, with a blank line as separator, of one block per slide number
    k = 1, ..., N in ascending order, each block being the header line
    [--- Slide k ---], a newline and the text of slide k.  The map
    {1: "A", 2: "B"} gives the two blocks exactly, and the empty map gives
    the empty string. *)
Theorem consolidate_blocks (d : dict string) :
  SlideTextMap d ->
  consolidate d =
  Str.join (Str.nl ++ Str.nl)
    (map (fun k => slide_header k ++ Str.nl ++ text_at d k)
         (range_from 1 (List.length d))) /\
  (forall num text,
      consolidate [(num, text)] =
      "--- Slide " ++ Str.of_int num ++ " ---" ++ Str.nl ++ text) /\
  (forall num text next rest,
      consolidate ((num, text) :: next :: rest) =
      ("--- Slide " ++ Str.of_int num ++ " ---" ++ Str.nl ++ text)
        ++ (Str.nl ++ Str.nl) ++ consolidate (next :: rest)) /\
  consolidate [(1, "A"); (2, "B")] =
  "--- Slide 1 ---" ++ Str.nl ++ "A" ++ Str.nl ++ Str.nl
    ++ "--- Slide 2 ---" ++ Str.nl ++ "B" /\
  consolidate [] = EmptyString.
Proof.
  intros Hmap. unfold SlideTextMap in Hmap.
  split; [|split; [|split; [|split]]].
  - unfold consolidate. f_equal.
    rewrite (map_items_by_key (fun num text => slide_header num ++ Str.nl ++ text))
      by (rewrite Hmap; apply NoDup_range_from).
    now rewrite Hmap.
  - intros num text. unfold consolidate, slide_header. cbn [map Str.join].
    now rewrite !StrFacts.append_assoc.
  - intros num text [num' text'] rest. unfold consolidate, slide_header.
    cbn [map Str.join]. now rewrite !StrFacts.append_assoc.
  - reflexivity.
  - reflexivity.
Qed.

Lemma consolidate_blocks_witness :
  SlideTextMap Demo.AB /\
  consolidate Demo.AB =
  Str.join (Str.nl ++ Str.nl)
    (map (fun k => slide_header k ++ Str.nl ++ text_at Demo.AB k) [1; 2]).
Proof.
  split; [reflexivity|].
  exact (proj1 (consolidate_blocks Demo.AB eq_refl)).
Defined.

(** C4.  [extract_text_from_image] returns on every input and never raises.
    When decoding and recognition succeed it returns the recognized text
    with the whitespace at both ends removed and prints nothing; when either
    fails it prints the warning line naming the failure and returns the
    empty string. *)
Theorem extract_text_from_image_total
        (w : World) (image_bytes : bytes) (t : Trace) :
  exists t' text,
    extract_text_from_image w image_bytes t = (t', inr text) /\
    match ocr_outcome w image_bytes with
    | inr recognized =>
        text = Str.strip recognized /\
        Str.trimmed text /\
        (exists pre post,
            recognized = pre ++ text ++ post /\
            Str.all_space pre = true /\ Str.all_space post = true) /\
        t' = (t ++ [EvImageOpen image_bytes; EvImageToString])%list
    | inl e =>
        text = EmptyString /\
        exists calls,
          t' = (t ++ calls
                  ++ [EvPrint ("    - Warning: Could not process an image. Error: "
                               ++ exc_str e)])%list /\
          forall line, ~ In (EvPrint line) calls
    end.
Proof.
  exists (t ++ image_trace w image_bytes)%list, (image_text w image_bytes).
  split; [apply extract_text_from_image_run|].
  unfold image_text, image_trace, ocr_outcome.
  destruct (Image_open w image_bytes) as [e|img].
  - split; [reflexivity|]. exists [EvImageOpen image_bytes].
    split; [reflexivity|]. intros line [H|[]]. discriminate.
  - destruct (image_to_string w img) as [e|recognized].
    + split; [reflexivity|]. exists [EvImageOpen image_bytes; EvImageToString].
      split; [reflexivity|]. intros line [H|[H|[]]]; discriminate.
    + split; [reflexivity|]. split; [apply StrFacts.strip_trimmed|].
      split; [apply StrFacts.strip_split | reflexivity].
Qed.

(** C5.  [analyze_text_with_gemini] returns a string on every input and never
    raises.  An exception of the remote call (or of reading its text) becomes
    the message "An error occurred while communicating with the AI model: "
    followed by the error detail; on success the text of the response is
    returned unchanged.  The prompt sent embeds the input verbatim. *)
Theorem analyze_always_returns
        (w : World) (all_slides_text : string) (t : Trace) :
  exists report,
    analyze_text_with_gemini w all_slides_text t =
    ((t ++ [EvGenerativeModel "gemini-1.5-flash-latest";
            EvGenerateContent (prompt_head ++ all_slides_text ++ prompt_tail)])%list,
     inr report) /\
    match service_outcome w (prompt_head ++ all_slides_text ++ prompt_tail) with
    | inr answer => report = answer
    | inl e =>
        report =
        "An error occurred while communicating with the AI model: " ++ exc_str e
    end.
Proof.
  unfold analyze_text_with_gemini, service_outcome.
  unfold bind, try_except, emit, call, lift, ret, analysis_error.
  destruct (generate_content w (prompt_head ++ all_slides_text ++ prompt_tail))
    as [e|response]; rewrite <- app_assoc; simpl.
  - eexists. split; reflexivity.
  - destruct (response_text w response) as [e|answer];
      eexists; split; reflexivity.
Qed.

(** C6.  When the path does not exist [extract_data_from_pptx] raises
    [FileNotFoundError], a class of its own, right after the existence check:
    the document is never opened or parsed.  In [main] the run then ends with
    the error line and without any call to the inference service. *)
Theorem missing_path_not_found (w : World) (pptx_path : string) (t : Trace) :
  os_path_exists w pptx_path = false ->
  extract_data_from_pptx w pptx_path t =
  ((t ++ [EvPathExists pptx_path])%list,
   inl (mkExc FileNotFoundError ("The file '" ++ pptx_path ++ "' was not found."))) /\
  exc_class (not_found pptx_path) <> ValueError /\
  (forall name, exc_class (not_found pptx_path) <> OtherError name) /\
  (forall c key,
      GEMINI_API_KEY w = Some (String c key) ->
      main w pptx_path t =
      ((t ++ [EvConfigure (String c key);
              EvPrint ("[+] Starting analysis of '" ++ pptx_path ++ "'...");
              EvPathExists pptx_path;
              EvPrint ("[!] Error: The file '" ++ pptx_path ++ "' was not found.")])%list,
       inr tt)) /\
  exists added,
    main w pptx_path t = ((t ++ added)%list, inr tt) /\
    none_of is_open_or_parse added /\
    none_of is_network_call added.
Proof.
  intros Hmissing.
  assert (Hextract : forall t0,
             extract_data_from_pptx w pptx_path t0 =
             ((t0 ++ [EvPathExists pptx_path])%list, inl (not_found pptx_path))).
  { intros t0. unfold extract_data_from_pptx, bind, call, raise.
    now rewrite Hmissing. }
  split; [apply Hextract|].
  split; [discriminate|]. split; [discriminate|].
  assert (Hmain : forall c key,
             GEMINI_API_KEY w = Some (String c key) ->
             main w pptx_path t =
             ((t ++ [EvConfigure (String c key);
                     EvPrint ("[+] Starting analysis of '" ++ pptx_path ++ "'...");
                     EvPathExists pptx_path;
                     EvPrint ("[!] Error: The file '" ++ pptx_path
                              ++ "' was not found.")])%list,
              inr tt)).
  { intros c key Hkey.
    unfold main, try_except, bind, configure_ai. rewrite Hkey.
    unfold print, emit. rewrite Hextract.
    unfold report_error, print, emit. simpl.
    now rewrite <- !app_assoc. }
  split; [exact Hmain|].
  destruct (GEMINI_API_KEY w) as [[|c key]|] eqn:Hkey.
  - exists [EvPrint ("[!] Error: " ++ exc_str config_error)].
    split; [|split; intros ev [<-|[]]; reflexivity].
    unfold main, try_except, bind, configure_ai. rewrite Hkey. reflexivity.
  - eexists. split; [apply (Hmain c key eq_refl)|].
    split; intros ev Hin; simpl in Hin;
      repeat (destruct Hin as [<-|Hin]; [reflexivity|]); destruct Hin.
  - exists [EvPrint ("[!] Error: " ++ exc_str config_error)].
    split; [|split; intros ev [<-|[]]; reflexivity].
    unfold main, try_except, bind, configure_ai. rewrite Hkey. reflexivity.
Qed.

Lemma missing_path_not_found_witness :
  os_path_exists (Demo.world (Some "k") true) "nowhere.pptx" = false /\
  main (Demo.world (Some "k") true) "nowhere.pptx" [] =
  ([EvConfigure "k";
    EvPrint "[+] Starting analysis of 'nowhere.pptx'...";
    EvPathExists "nowhere.pptx";
    EvPrint "[!] Error: The file 'nowhere.pptx' was not found."],
   inr tt).
Proof.
  split; [reflexivity|].
  exact (proj1 (proj2 (proj2 (proj2
    (missing_path_not_found (Demo.world (Some "k") true) "nowhere.pptx" []
       eq_refl)))) "k"%char EmptyString eq_refl).
Defined.

(** C7.  When the path exists but the parser rejects the file, the parser's
    exception leaves [extract_data_from_pptx] unchanged; [main], once
    configured, prints the error line carrying its detail and ends, and no
    call to the inference service is made. *)
Theorem corrupt_deck_aborts
        (w : World) (pptx_path : string) (e : Exception) (t : Trace) :
  os_path_exists w pptx_path = true ->
  Presentation w pptx_path = inl e ->
  extract_data_from_pptx w pptx_path t =
  ((t ++ [EvPathExists pptx_path; EvPresentation pptx_path])%list, inl e) /\
  (forall c key,
      GEMINI_API_KEY w = Some (String c key) ->
      main w pptx_path t =
      ((t ++ [EvConfigure (String c key);
              EvPrint ("[+] Starting analysis of '" ++ pptx_path ++ "'...");
              EvPathExists pptx_path;
              EvPresentation pptx_path;
              EvPrint (error_line e)])%list,
       inr tt)) /\
  (error_line e = "[!] Error: " ++ exc_str e \/
   error_line e = "[!] An unexpected error occurred: " ++ exc_str e) /\
  exists added,
    main w pptx_path t = ((t ++ added)%list, inr tt) /\
    none_of is_network_call added.
Proof.
  intros Hexists Hparse.
  assert (Hextract : forall t0,
             extract_data_from_pptx w pptx_path t0 =
             ((t0 ++ [EvPathExists pptx_path; EvPresentation pptx_path])%list,
              inl e)).
  { intros t0. unfold extract_data_from_pptx, bind, call.
    rewrite Hexists, Hparse. simpl. now rewrite <- app_assoc. }
  split; [apply Hextract|].
  assert (Hmain : forall c key,
             GEMINI_API_KEY w = Some (String c key) ->
             main w pptx_path t =
             ((t ++ [EvConfigure (String c key);
                     EvPrint ("[+] Starting analysis of '" ++ pptx_path ++ "'...");
                     EvPathExists pptx_path;
                     EvPresentation pptx_path;
                     EvPrint (error_line e)])%list,
              inr tt)).
  { intros c key Hkey.
    unfold main, try_except, bind, configure_ai. rewrite Hkey.
    unfold print, emit. rewrite Hextract.
    unfold report_error, error_line, print, emit.
    destruct (exc_class e); rewrite <- !app_assoc; reflexivity. }
  split; [exact Hmain|].
  split; [unfold error_line; destruct (exc_class e); auto|].
  destruct (GEMINI_API_KEY w) as [[|c key]|] eqn:Hkey.
  - exists [EvPrint ("[!] Error: " ++ exc_str config_error)].
    split; [|intros ev [<-|[]]; reflexivity].
    unfold main, try_except, bind, configure_ai. rewrite Hkey. reflexivity.
  - eexists. split; [apply (Hmain c key eq_refl)|].
    intros ev Hin; simpl in Hin;
      repeat (destruct Hin as [<-|Hin]; [reflexivity|]); destruct Hin.
  - exists [EvPrint ("[!] Error: " ++ exc_str config_error)].
    split; [|intros ev [<-|[]]; reflexivity].
    unfold main, try_except, bind, configure_ai. rewrite Hkey. reflexivity.
Qed.

Lemma corrupt_deck_aborts_witness :
  os_path_exists (Demo.world (Some "k") true) "notes.txt" = true /\
  Presentation (Demo.world (Some "k") true) "notes.txt" =
  inl Demo.package_not_found /\
  main (Demo.world (Some "k") true) "notes.txt" [] =
  ([EvConfigure "k";
    EvPrint "[+] Starting analysis of 'notes.txt'...";
    EvPathExists "notes.txt";
    EvPresentation "notes.txt";
    EvPrint "[!] An unexpected error occurred: Package not found at 'notes.txt'"],
   inr tt).
Proof.
  split; [reflexivity|]. split; [reflexivity|].
  exact (proj1 (proj2
    (corrupt_deck_aborts (Demo.world (Some "k") true) "notes.txt"
       Demo.package_not_found [] eq_refl eq_refl))
    "k"%char EmptyString eq_refl).
Defined.

(** C8.  Without a credential [configure_ai] raises its own [ValueError],
    and [main] ends after printing that one error line: the deck is never
    looked up, opened or read, and no extraction work is done. *)
Theorem missing_credential_fails_fast
        (w : World) (pptx_file : string) (t : Trace) :
  GEMINI_API_KEY w = None ->
  configure_ai w t =
  (t, inl (mkExc ValueError
             "GEMINI_API_KEY not found. Please set it in your .env file.")) /\
  (forall path, config_error <> not_found path) /\
  exists added,
    main w pptx_file t = ((t ++ added)%list, inr tt) /\
    added =
    [EvPrint "[!] Error: GEMINI_API_KEY not found. Please set it in your .env file."] /\
    none_of is_file_io added /\
    none_of is_network_call added.
Proof.
  intros Hkey.
  split; [unfold configure_ai; rewrite Hkey; reflexivity|].
  split; [discriminate|].
  eexists. split; [|split; [reflexivity|]].
  - unfold main, try_except, bind, configure_ai. rewrite Hkey. reflexivity.
  - split; intros ev [<-|[]]; reflexivity.
Qed.

Lemma missing_credential_fails_fast_witness :
  GEMINI_API_KEY (Demo.world None true) = None /\
  main (Demo.world None true) "deck.pptx" [] =
  ([EvPrint "[!] Error: GEMINI_API_KEY not found. Please set it in your .env file."],
   inr tt).
Proof.
  split; [reflexivity|].
  destruct (missing_credential_fails_fast (Demo.world None true) "deck.pptx" []
              eq_refl) as [_ [_ [added [Hmain [Hadded _]]]]].
  rewrite Hmain, Hadded. reflexivity.
Defined.

(** C9.  Extraction depends only on the content of the document.  Two runs
    that parse the same deck, with an image extractor that yields the same
    text on the images of that deck, end alike: both return the same mapping
    or both raise the same exception, whatever the path, the credential, the
    service or the output printed so far.  When a mapping is returned the
    consolidated strings are the same, and so is the prompt each run of
    [main] sends. *)
Theorem extraction_deterministic
        (w1 w2 : World) (path1 path2 : string) (deck : Deck) (t1 t2 : Trace) :
  os_path_exists w1 path1 = true ->
  os_path_exists w2 path2 = true ->
  Presentation w1 path1 = inr deck ->
  Presentation w2 path2 = inr deck ->
  (forall blob, In blob (deck_images deck) ->
                image_text w1 blob = image_text w2 blob) ->
  snd (extract_data_from_pptx w1 path1 t1) =
  snd (extract_data_from_pptx w2 path2 t2) /\
  (forall slide_data c1 key1 c2 key2,
      snd (extract_data_from_pptx w1 path1 t1) = inr slide_data ->
      GEMINI_API_KEY w1 = Some (String c1 key1) ->
      GEMINI_API_KEY w2 = Some (String c2 key2) ->
      let sent :=
        EvGenerateContent (prompt_head ++ consolidate slide_data ++ prompt_tail)
      in
      In sent (fst (main w1 path1 t1)) /\ In sent (fst (main w2 path2 t2))).
Proof.
  intros Hexists1 Hexists2 Hparse1 Hparse2 Hsame.
  assert (Heq : entries_from w1 0 (slides deck) = entries_from w2 0 (slides deck))
    by (apply entries_from_ext; exact Hsame).
  rewrite (extract_run w1 _ deck _ Hexists1 Hparse1).
  rewrite (extract_run w2 _ deck _ Hexists2 Hparse2).
  cbn [snd]. split; [now rewrite Heq|].
  intros slide_data c1 key1 c2 key2 Hrun Hkey1 Hkey2. cbv zeta.
  destruct (slides_stop (slides deck)) eqn:Hstop; [discriminate|].
  injection Hrun as <-. split.
  - rewrite (main_parsed w1 path1 c1 key1 deck t1 Hkey1 Hexists1 Hparse1 Hstop).
    cbn [fst]. apply in_or_app. right. apply in_or_app. right.
    apply in_or_app. left. now left.
  - rewrite Heq.
    rewrite (main_parsed w2 path2 c2 key2 deck t2 Hkey2 Hexists2 Hparse2 Hstop).
    cbn [fst]. apply in_or_app. right. apply in_or_app. right.
    apply in_or_app. left. now left.
Qed.

Lemma extraction_deterministic_witness :
  snd (extract_data_from_pptx (Demo.world (Some "k") true) "deck.pptx" []) =
  snd (extract_data_from_pptx (Demo.world None false) "deck.pptx"
         [EvPrint "earlier output"]) /\
  snd (extract_data_from_pptx (Demo.world (Some "k") true) "linked.pptx" []) =
  snd (extract_data_from_pptx (Demo.world None false) "linked.pptx"
         [EvPrint "earlier output"]).
Proof.
  split.
  - exact (proj1 (extraction_deterministic
                    (Demo.world (Some "k") true) (Demo.world None false)
                    "deck.pptx" "deck.pptx" Demo.deck []
                    [EvPrint "earlier output"]
                    eq_refl eq_refl eq_refl eq_refl (fun blob _ => eq_refl))).
  - exact (proj1 (extraction_deterministic
                    (Demo.world (Some "k") true) (Demo.world None false)
                    "linked.pptx" "linked.pptx" Demo.linked_deck []
                    [EvPrint "earlier output"]
                    eq_refl eq_refl eq_refl eq_refl (fun blob _ => eq_refl))).
Defined.

(** C10.  Once the slide loop has written the entry of a slide, that entry
    is what the shape loop, started on an empty accumulator, collects from
    that slide alone, whatever slides come before or after it; processing
    the later slides starts from the mapping as it then is, and every
    mapping the loop goes on to return only has entries appended: each entry
    already written stays where it is with the text it had. *)
Theorem slide_entries_independent_and_stable
        (w : World) (before after : list Slide) (slide : Slide)
        (t t1 : Trace) (d1 : dict string) :
  extract_loop w (before ++ [slide])%list t = (t1, inr d1) ->
  (exists tk texts n,
      for_each (shapes slide) (shape_body w) ([], 0) [] = (tk, inr (texts, n)) /\
      getitem d1 (len before + 1) =
      Some (Str.join Str.nl (Str.filter_None texts))) /\
  extract_loop w (before ++ slide :: after)%list t =
  for_each (enumerate_from (len before + 1) after) (slide_body w) d1 t1 /\
  (slides_stop after = None ->
   exists t2 d2,
     extract_loop w (before ++ slide :: after)%list t = (t2, inr d2)) /\
  (forall t2 d2,
      extract_loop w (before ++ slide :: after)%list t = (t2, inr d2) ->
      exists later,
        d2 = (d1 ++ later)%list /\
        List.length later = List.length after /\
        (forall k text, getitem d1 k = Some text -> getitem d2 k = Some text)).
Proof.
  intros Hrun.
  assert (Hrun' := Hrun). rewrite extract_loop_run in Hrun'.
  rewrite slides_stop_app in Hrun'.
  destruct (slides_stop before) eqn:Hbefore; [discriminate|].
  cbn [slides_stop] in Hrun'.
  destruct (shapes_stop (shapes slide)) eqn:Hslide; [discriminate|].
  injection Hrun' as Ht1 Hd1.
  assert (Hlen : len (before ++ [slide])%list = len before + 1).
  { unfold len. rewrite length_app. simpl. lia. }
  assert (Hcont : extract_loop w (before ++ slide :: after)%list t =
                  for_each (enumerate_from (len before + 1) after)
                    (slide_body w) d1 t1).
  { replace (before ++ slide :: after)%list
      with ((before ++ [slide]) ++ after)%list
      by (rewrite <- app_assoc; reflexivity).
    unfold extract_loop. rewrite enumerate_from_app, for_each_app.
    unfold bind. fold (extract_loop w (before ++ [slide])%list).
    rewrite Hrun, Hlen, Z.add_0_l. reflexivity. }
  assert (Hnext : for_each (enumerate_from (len before + 1) after)
                    (slide_body w) d1 t1 =
                  ((t1 ++ loop_trace w (len before + 1) after)%list,
                   match slides_stop after with
                   | Some e => inl e
                   | None =>
                       inr (d1 ++ entries_from w (len before + 1) after)%list
                   end)).
  { apply slides_loop_run. intros k Hin.
    rewrite <- Hd1, keys_entries_from in Hin.
    apply in_range_from in Hin. unfold len in *. lia. }
  split.
  { exists (flat_map (shape_trace w) (shapes_done (shapes slide))).
    exists (flat_map (shape_fragments w) (shapes slide)).
    exists (count_images (shapes slide)).
    split; [rewrite shapes_loop_run, Hslide; reflexivity|].
    rewrite <- Hd1.
    replace (len before + 1) with (0 + Z.of_nat (List.length before) + 1)
      by (unfold len; lia).
    apply getitem_entries_from.
    rewrite nth_error_app2 by lia. now rewrite Nat.sub_diag. }
  split; [exact Hcont|].
  split.
  { intros Hafter. rewrite Hcont, Hnext, Hafter. eauto. }
  intros t2 d2 Hfull. rewrite Hcont, Hnext in Hfull.
  destruct (slides_stop after); [discriminate|].
  injection Hfull as _ <-.
  exists (entries_from w (len before + 1) after).
  split; [reflexivity|]. split; [apply length_entries_from|].
  intros k text. apply getitem_app_l.
Qed.

Lemma slide_entries_independent_and_stable_witness :
  extract_loop (Demo.world None true) ([mkSlide []] ++ [mkSlide [Demo.picture [x41]]])%list [] =
  ([EvPrint "    - Extracted text from Slide 1";
    EvImageOpen [x41]; EvImageToString;
    EvPrint "    - Extracted text and 1 image(s) from Slide 2"],
   inr [(1, EmptyString);
        (2, "[OCR Text from Image]:" ++ String "010"%char "ABC")]) /\
  exists t2 d2,
    extract_loop (Demo.world None true)
      ([mkSlide []] ++ mkSlide [Demo.picture [x41]]
                    :: [mkSlide [Demo.picture [x00]]])%list [] =
    (t2, inr d2).
Proof.
  split; [reflexivity|].
  exact (proj1 (proj2 (proj2
    (slide_entries_independent_and_stable (Demo.world None true)
       [mkSlide []] [mkSlide [Demo.picture [x00]]]
       (mkSlide [Demo.picture [x41]]) [] _ _ eq_refl))) eq_refl).
Defined.

(** ** Further properties of the program *)

(** X1.  An empty credential counts as a missing one: [configure_ai] raises
    the same [ValueError] as for an unset variable, and [main] prints that
    error line and stops before looking at the deck. *)
Theorem empty_credential_is_missing
        (w : World) (pptx_file : string) (t : Trace) :
  GEMINI_API_KEY w = Some EmptyString ->
  configure_ai w t = (t, inl config_error) /\
  main w pptx_file t =
  ((t ++ [EvPrint "[!] Error: GEMINI_API_KEY not found. Please set it in your .env file."])%list,
   inr tt).
Proof.
  intros Hkey. split.
  - unfold configure_ai. now rewrite Hkey.
  - rewrite main_unconfigured by (now right). reflexivity.
Qed.

Lemma empty_credential_is_missing_witness :
  GEMINI_API_KEY (Demo.world (Some EmptyString) true) = Some EmptyString /\
  main (Demo.world (Some EmptyString) true) "deck.pptx" [] =
  ([EvPrint "[!] Error: GEMINI_API_KEY not found. Please set it in your .env file."],
   inr tt).
Proof.
  split; [reflexivity|].
  exact (proj2 (empty_credential_is_missing
                  (Demo.world (Some EmptyString) true) "deck.pptx" [] eq_refl)).
Defined.

(** X3.  When the credential is set, the deck parses and no image lookup
    raises, [main] calls the service exactly once, after the whole
    extraction; the prompt is the fixed text around the consolidation of the
    extracted mapping; and the run ends with the banner followed by the
    service's answer or, when the call raised, by the error message in its
    place. *)
Theorem main_sends_one_prompt
        (w : World) (pptx_file : string) (c : ascii) (key : string)
        (deck : Deck) (t : Trace) :
  GEMINI_API_KEY w = Some (String c key) ->
  os_path_exists w pptx_file = true ->
  Presentation w pptx_file = inr deck ->
  slides_stop (slides deck) = None ->
  exists before slide_data,
    snd (extract_data_from_pptx w pptx_file []) = inr slide_data /\
    main w pptx_file t =
    ((t ++ before
        ++ [EvGenerateContent (prompt_head ++ consolidate slide_data ++ prompt_tail)]
        ++ report_lines
             match service_outcome w
                     (prompt_head ++ consolidate slide_data ++ prompt_tail) with
             | inr answer => answer
             | inl e =>
                 "An error occurred while communicating with the AI model: "
                   ++ exc_str e
             end)%list,
     inr tt) /\
    none_of is_network_call before /\
    (forall report, none_of is_network_call (report_lines report)).
Proof.
  intros Hkey Hexists Hparse Hstop.
  eexists. exists (entries_from w 0 (slides deck)).
  split; [now rewrite (extract_run w _ deck _ Hexists Hparse), Hstop|].
  split; [apply (main_parsed w pptx_file c key deck t Hkey Hexists Hparse Hstop)|].
  split.
  - intros ev Hin. apply in_app_or in Hin. destruct Hin as [Hin|Hin].
    + now apply extraction_events_quiet in Hin.
    + repeat (destruct Hin as [<-|Hin]; [reflexivity|]). destruct Hin.
  - intros report ev Hin.
    repeat (destruct Hin as [<-|Hin]; [reflexivity|]). destruct Hin.
Qed.

Lemma main_sends_one_prompt_witness :
  slides_stop (slides Demo.deck) = None /\
  exists before slide_data,
    main (Demo.world (Some "k") false) "deck.pptx" [] =
    ((before
        ++ [EvGenerateContent (prompt_head ++ consolidate slide_data ++ prompt_tail)]
        ++ report_lines
             "An error occurred while communicating with the AI model: 503 service unavailable")%list,
     inr tt).
Proof.
  split; [reflexivity|].
  destruct (main_sends_one_prompt (Demo.world (Some "k") false) "deck.pptx"
              "k"%char EmptyString Demo.deck [] eq_refl eq_refl eq_refl eq_refl)
    as [before [slide_data [_ [Hmain _]]]].
  exists before, slide_data. exact Hmain.
Defined.

(** X4.  [extract_data_from_pptx] never reaches the inference client: on any
    path, whether it raises or returns, it only adds to the output and adds
    no configuration, model or generation event. *)
Theorem extraction_never_touches_service
        (w : World) (pptx_path : string) (t : Trace) :
  exists added,
    fst (extract_data_from_pptx w pptx_path t) = (t ++ added)%list /\
    none_of is_service_event added.
Proof.
  destruct (os_path_exists w pptx_path) eqn:Hexists.
  - destruct (Presentation w pptx_path) as [e|deck] eqn:Hparse.
    + exists [EvPathExists pptx_path; EvPresentation pptx_path]. split.
      * unfold extract_data_from_pptx, bind, call.
        rewrite Hexists, Hparse. simpl. now rewrite <- app_assoc.
      * intros ev Hin.
        repeat (destruct Hin as [<-|Hin]; [reflexivity|]). destruct Hin.
    + eexists. split.
      * rewrite (extract_run w _ deck _ Hexists Hparse). reflexivity.
      * intros ev Hin.
        repeat (destruct Hin as [<-|Hin]; [reflexivity|]).
        apply loop_trace_loop_events in Hin. now destruct ev.
  - exists [EvPathExists pptx_path]. split.
    + unfold extract_data_from_pptx, bind, call, raise. now rewrite Hexists.
    + intros ev [<-|[]]. reflexivity.
Qed.

(** *** Trimming, again *)

Lemma lstrip_cases (s : string) :
  (Str.lstrip s = EmptyString /\ Str.all_space s = true) \/
  (exists c rest,
      Str.lstrip s = String c rest /\ Str.isspace c = false /\
      Str.all_space s = false).
Proof.
  induction s as [|c rest IH]; simpl.
  - left. split; reflexivity.
  - destruct (Str.isspace c) eqn:Hc; simpl.
    + exact IH.
    + right. exists c, rest. auto.
Qed.

Lemma rstrip_keeps_head (c : ascii) (rest : string) :
  Str.isspace c = false -> Str.rstrip (String c rest) <> EmptyString.
Proof.
  intros Hc. simpl. destruct (Str.rstrip rest); [rewrite Hc|]; discriminate.
Qed.

Lemma truthy_strip (s : string) :
  Str.truthy (Str.strip s) = negb (Str.all_space s).
Proof.
  unfold Str.strip.
  destruct (lstrip_cases s) as [[Hl Hall]|[c [rest [Hl [Hc Hall]]]]];
    rewrite Hl, Hall.
  - reflexivity.
  - pose proof (rstrip_keeps_head c rest Hc) as Hne.
    destruct (Str.rstrip (String c rest)); [contradiction | reflexivity].
Qed.

Lemma lstrip_fixed (s : string) :
  (forall c, Str.first_char s = Some c -> Str.isspace c = false) ->
  Str.lstrip s = s.
Proof.
  destruct s as [|c rest]; simpl; intros H; [reflexivity|].
  now rewrite (H c eq_refl).
Qed.

Lemma rstrip_fixed (s : string) :
  (forall c, Str.last_char s = Some c -> Str.isspace c = false) ->
  Str.rstrip s = s.
Proof.
  induction s as [|c rest IH]; intros H; [reflexivity|].
  destruct rest as [|c' rest'].
  - simpl. now rewrite (H c eq_refl).
  - assert (Hrest : Str.rstrip (String c' rest') = String c' rest')
      by (apply IH; intros x Hx; apply H; exact Hx).
    change (Str.rstrip (String c (String c' rest')))
      with (match Str.rstrip (String c' rest') with
            | EmptyString =>
                if Str.isspace c then EmptyString else String c EmptyString
            | String a b => String c (String a b)
            end).
    now rewrite Hrest.
Qed.

(** X5.  A text that has no whitespace at either end is handed back by
    [extract_text_from_image] as it was recognized, and only such a text is:
    the result equals the recognized text exactly when that text is already
    trimmed. *)
Theorem recognized_text_kept_iff_trimmed
        (w : World) (image_bytes : bytes) (recognized : string) (t : Trace) :
  ocr_outcome w image_bytes = inr recognized ->
  (snd (extract_text_from_image w image_bytes t) = inr recognized <->
   Str.trimmed recognized).
Proof.
  intros Hocr. rewrite extract_text_from_image_run. simpl.
  unfold image_text. rewrite Hocr. split.
  - intros H. injection H as H. rewrite <- H. apply StrFacts.strip_trimmed.
  - intros [Hfirst Hlast]. f_equal. unfold Str.strip.
    rewrite (lstrip_fixed _ Hfirst). now apply rstrip_fixed.
Qed.

Lemma recognized_text_kept_iff_trimmed_witness :
  ocr_outcome (Demo.world None true) [x41] = inr ("  ABC" ++ Str.nl) /\
  (snd (extract_text_from_image (Demo.world None true) [x41] []) =
   inr ("  ABC" ++ Str.nl) <->
   Str.trimmed ("  ABC" ++ Str.nl)).
Proof.
  split; [reflexivity|].
  exact (recognized_text_kept_iff_trimmed (Demo.world None true) [x41]
           ("  ABC" ++ Str.nl) [] eq_refl).
Defined.

(** X6.  A picture whose recognized text is nothing but whitespace adds no
    fragment to the slide, although it is counted; any other recognized text
    adds exactly one fragment, the label line followed by the trimmed
    text. *)
Theorem blank_recognized_text_adds_nothing
        (w : World) (image_bytes : bytes) (recognized : string)
        (slide_texts : list string) (image_count : Z) (t : Trace) :
  ocr_outcome w image_bytes = inr recognized ->
  snd (shape_body w (mkShape None None (Embedded image_bytes))
         (slide_texts, image_count) t) =
  inr (if Str.all_space recognized
       then slide_texts
       else append slide_texts
              ("[OCR Text from Image]:" ++ Str.nl ++ Str.strip recognized),
       image_count + 1).
Proof.
  intros Hocr. unfold shape_body. simpl.
  unfold bind. rewrite extract_text_from_image_run.
  unfold image_text. rewrite Hocr, truthy_strip.
  destruct (Str.all_space recognized); reflexivity.
Qed.

Lemma blank_recognized_text_adds_nothing_witness :
  ocr_outcome (Demo.world None true) [x20] = inr "   " /\
  snd (shape_body (Demo.world None true) (mkShape None None (Embedded [x20]))
         (["Title"], 0) []) =
  inr (["Title"], 1).
Proof.
  split; [reflexivity|].
  exact (blank_recognized_text_adds_nothing (Demo.world None true) [x20]
           "   " ["Title"] 0 [] eq_refl).
Defined.

(** *** OCR attempts and the progress lines *)

Lemma image_trace_opens (w : World) (blob : bytes) :
  filter is_image_open (image_trace w blob) = [EvImageOpen blob].
Proof.
  unfold image_trace. destruct (Image_open w blob) as [e|img]; [reflexivity|].
  destruct (image_to_string w img); reflexivity.
Qed.

Lemma shapes_trace_opens (w : World) (shape_list : list Shape) :
  filter is_image_open (flat_map (shape_trace w) shape_list) =
  map EvImageOpen (slide_images (mkSlide shape_list)).
Proof.
  unfold slide_images. cbn [shapes].
  induction shape_list as [|shape rest IH]; simpl; [reflexivity|].
  rewrite filter_app, map_app, IH. f_equal.
  unfold shape_trace. destruct (image shape) as [|blob|e]; try reflexivity.
  apply image_trace_opens.
Qed.

Lemma slide_trace_opens (w : World) (i : Z) (slide : Slide) :
  filter is_image_open (slide_trace w i slide) =
  map EvImageOpen (slide_images slide).
Proof.
  unfold slide_trace. rewrite filter_app. simpl. rewrite app_nil_r.
  destruct slide as [shape_list]. apply shapes_trace_opens.
Qed.

Lemma slides_trace_opens (w : World) (i : Z) (deck_slides : list Slide) :
  filter is_image_open (slides_trace w i deck_slides) =
  map EvImageOpen (flat_map slide_images deck_slides).
Proof.
  unfold slides_trace. revert i.
  induction deck_slides as [|slide rest IH]; intros i; simpl; [reflexivity|].
  now rewrite filter_app, map_app, IH, slide_trace_opens.
Qed.

Lemma count_images_len (shape_list : list Shape) :
  count_images shape_list = len (slide_images (mkSlide shape_list)).
Proof.
  unfold slide_images, len. cbn [shapes].
  induction shape_list as [|shape rest IH]; cbn [count_images flat_map];
    [reflexivity|].
  rewrite length_app.
  destruct (image shape) as [|blob|e]; rewrite IH; simpl List.length; lia.
Qed.

(** X7.  On a deck that parses, the images handed to the decoder are, once
    each and in document order, those of the shapes the loops get to: every
    image of the deck when no image lookup raises (whether or not decoding
    or recognition of an earlier image failed), and otherwise the images
    before the shape whose lookup raises. *)
Theorem every_image_is_tried_once
        (w : World) (pptx_path : string) (deck : Deck) (t : Trace) :
  os_path_exists w pptx_path = true ->
  Presentation w pptx_path = inr deck ->
  exists added,
    fst (extract_data_from_pptx w pptx_path t) = (t ++ added)%list /\
    filter is_image_open added =
    map EvImageOpen (attempted_images (slides deck)) /\
    (slides_stop (slides deck) = None ->
     attempted_images (slides deck) = deck_images deck).
Proof.
  intros Hexists Hparse. eexists.
  split; [rewrite (extract_run w _ deck _ Hexists Hparse); reflexivity|].
  split.
  - rewrite filter_app. simpl. unfold loop_trace, attempted_images.
    now rewrite filter_app, map_app, slides_trace_opens, shapes_trace_opens.
  - intros Hstop. unfold attempted_images, deck_images.
    destruct (slides_done_all _ Hstop) as [-> ->]. apply app_nil_r.
Qed.

Lemma every_image_is_tried_once_witness :
  (exists added,
      fst (extract_data_from_pptx (Demo.world None true) "deck.pptx" []) = added /\
      filter is_image_open added =
      [EvImageOpen [x41]; EvImageOpen [x41]; EvImageOpen [x20];
       EvImageOpen [x00]]) /\
  (exists added,
      fst (extract_data_from_pptx (Demo.world None true) "linked.pptx" []) = added /\
      filter is_image_open added = []).
Proof.
  split.
  - destruct (every_image_is_tried_once (Demo.world None true) "deck.pptx"
                Demo.deck [] eq_refl eq_refl) as [added [Hrun [Hopens _]]].
    exists added. split; [exact Hrun | exact Hopens].
  - destruct (every_image_is_tried_once (Demo.world None true) "linked.pptx"
                Demo.linked_deck [] eq_refl eq_refl) as [added [Hrun [Hopens _]]].
    exists added. split; [exact Hrun | exact Hopens].
Defined.

(** X8.  When no image lookup of the slide raises, the progress line is the
    last thing the slide's loop body emits, and the number of images it
    reports is the number of shapes carrying image data, also those whose
    OCR failed or found no text; a slide without such shapes gets the line
    without a count. *)
Theorem progress_line_counts_every_image
        (w : World) (i : Z) (slide : Slide) (slide_data : dict string)
        (t : Trace) :
  shapes_stop (shapes slide) = None ->
  exists t' slide_data',
    slide_body w (i, slide) slide_data t =
    ((t' ++ [EvPrint
               match slide_images slide with
               | [] => "    - Extracted text from Slide " ++ Str.of_int (i + 1)
               | _ :: _ =>
                   "    - Extracted text and "
                     ++ Str.of_int (len (slide_images slide))
                     ++ " image(s) from Slide " ++ Str.of_int (i + 1)
               end])%list,
     inr slide_data').
Proof.
  intros Hstop.
  exists (t ++ flat_map (shape_trace w) (shapes slide))%list.
  eexists. rewrite slide_body_run, Hstop. unfold slide_trace.
  rewrite app_assoc. do 3 f_equal.
  rewrite count_images_len. unfold slide_progress.
  destruct slide as [shape_list]. simpl shapes.
  destruct (slide_images (mkSlide shape_list)) as [|blob blobs]; [reflexivity|].
  replace (0 <? len (blob :: blobs)) with true; [reflexivity|].
  symmetry. apply Z.ltb_lt. unfold len. simpl List.length. lia.
Qed.

Lemma progress_line_counts_every_image_witness :
  exists t' slide_data',
    slide_body (Demo.world None true)
      (4, mkSlide [Demo.picture [x00]; Demo.picture [x20]]) [] [] =
    ((t' ++ [EvPrint "    - Extracted text and 2 image(s) from Slide 5"])%list,
     inr slide_data').
Proof.
  exact (progress_line_counts_every_image (Demo.world None true) 4
           (mkSlide [Demo.picture [x00]; Demo.picture [x20]]) [] [] eq_refl).
Defined.

(** *** Joining fragments *)

Lemma truthy_append_l (a b : string) :
  Str.truthy a = true -> Str.truthy (a ++ b) = true.
Proof.
  destruct a; [discriminate | reflexivity].
Qed.

Lemma join_truthy (sep p : string) (rest : list string) :
  Str.truthy p = true -> Str.truthy (Str.join sep (p :: rest)) = true.
Proof.
  intros Hp. destruct rest as [|q rest]; simpl; [exact Hp|].
  now apply truthy_append_l.
Qed.

Lemma truthy_false (s : string) : Str.truthy s = false <-> s = EmptyString.
Proof.
  destruct s; simpl; split; congruence.
Qed.

Lemma filter_None_nil (parts : list string) :
  Str.filter_None parts = [] <-> forall part, In part parts -> part = EmptyString.
Proof.
  unfold Str.filter_None. induction parts as [|p rest IH]; simpl.
  - split; [intros _ part [] | reflexivity].
  - destruct (Str.truthy p) eqn:Hp.
    + split; [discriminate|]. intros Hall.
      rewrite (Hall p (or_introl eq_refl)) in Hp. discriminate.
    + apply truthy_false in Hp. rewrite IH. split.
      * intros Hall part [<-|Hin]; [exact Hp | now apply Hall].
      * intros Hall part Hin. apply Hall. now right.
Qed.

Lemma join_filter_empty (parts : list string) :
  Str.join Str.nl (Str.filter_None parts) = EmptyString <->
  forall part, In part parts -> part = EmptyString.
Proof.
  rewrite <- filter_None_nil. split.
  - intros Hjoin. destruct (Str.filter_None parts) as [|p rest] eqn:Hf;
      [reflexivity|].
    assert (Hp : Str.truthy p = true).
    { assert (Hin : In p (Str.filter_None parts)) by (rewrite Hf; now left).
      unfold Str.filter_None in Hin. apply filter_In in Hin. tauto. }
    pose proof (join_truthy Str.nl p rest Hp) as Hjt.
    rewrite Hjoin in Hjt. discriminate.
  - intros ->. reflexivity.
Qed.

Lemma image_fragments_empty (w : World) (shape : Shape) :
  (forall part, In part (image_fragments w shape) -> part = EmptyString) <->
  (forall blob, image shape = Embedded blob -> image_text w blob = EmptyString).
Proof.
  unfold image_fragments. destruct (image shape) as [|blob|e].
  - split; [intros _ blob; discriminate | intros _ part []].
  - destruct (Str.truthy (image_text w blob)) eqn:Htext.
    + split.
      * intros Hall. specialize (Hall _ (or_introl eq_refl)). discriminate.
      * intros Hall. rewrite (Hall blob eq_refl) in Htext. discriminate.
    + apply truthy_false in Htext. split.
      * intros _ b Hb. injection Hb as <-. exact Htext.
      * intros _ part [].
  - split; [intros _ blob; discriminate | intros _ part []].
Qed.

(** X9.  On a deck that parses and in which no image lookup raises, the
    entry of a slide is the empty string exactly when the slide has no text
    at all: every text frame of it is empty, every table cell is empty, and
    no image yields recognized text. *)
Theorem entry_empty_iff_no_text
        (w : World) (pptx_path : string) (deck : Deck) (t : Trace) :
  os_path_exists w pptx_path = true ->
  Presentation w pptx_path = inr deck ->
  slides_stop (slides deck) = None ->
  exists t' slide_data,
    extract_data_from_pptx w pptx_path t = (t', inr slide_data) /\
    forall k slide,
      nth_error (slides deck) k = Some slide ->
      (getitem slide_data (Z.of_nat k + 1) = Some EmptyString <->
       forall shape,
         In shape (shapes slide) ->
         (forall text, text_frame shape = Some text -> text = EmptyString) /\
         (forall rows row cell,
             table shape = Some rows -> In row rows -> In cell row ->
             cell = EmptyString) /\
         (forall blob,
             image shape = Embedded blob ->
             snd (extract_text_from_image w blob []) = inr EmptyString)).
Proof.
  intros Hexists Hparse Hstop. eexists. exists (entries_from w 0 (slides deck)).
  split; [rewrite (extract_run w _ deck _ Hexists Hparse), Hstop; reflexivity|].
  intros k slide Hnth.
  rewrite (getitem_entries_from w _ 0 k slide Hnth : getitem _ (Z.of_nat k + 1) = _).
  unfold slide_entry.
  transitivity (forall part,
                   In part (flat_map (shape_fragments w) (shapes slide)) ->
                   part = EmptyString).
  { rewrite <- join_filter_empty. split; [congruence | intros ->; reflexivity]. }
  split.
  - intros Hall shape Hshape.
    assert (Hfrag : forall part, In part (shape_fragments w shape) ->
                                 part = EmptyString).
    { intros part Hin. apply Hall, in_flat_map. now exists shape. }
    unfold shape_fragments in Hfrag. split; [|split].
    + intros text Htext. apply Hfrag, in_or_app. left.
      unfold text_fragments. rewrite Htext. now left.
    + intros rows row cell Hrows Hrow Hcell.
      apply Hfrag, in_or_app. right. apply in_or_app. left.
      unfold table_fragments. rewrite Hrows. apply in_concat. now exists row.
    + intros blob Hblob. rewrite extract_text_from_image_run. simpl. f_equal.
      apply (proj1 (image_fragments_empty w shape)); [|exact Hblob].
      intros part Hin. apply Hfrag, in_or_app. right. apply in_or_app. now right.
  - intros Hall part Hin. apply in_flat_map in Hin.
    destruct Hin as [shape [Hshape Hin]].
    destruct (Hall shape Hshape) as [Htext [Hcells Himage]].
    unfold shape_fragments in Hin.
    apply in_app_or in Hin. destruct Hin as [Hin|Hin].
    + unfold text_fragments in Hin.
      destruct (text_frame shape) as [text|]; [|destruct Hin].
      destruct Hin as [<-|[]]. now apply Htext.
    + apply in_app_or in Hin. destruct Hin as [Hin|Hin].
      * unfold table_fragments in Hin.
        destruct (table shape) as [rows|]; [|destruct Hin].
        apply in_concat in Hin. destruct Hin as [row [Hrow Hcell]].
        now apply (Hcells rows row part).
      * revert part Hin. apply image_fragments_empty.
        intros blob Hblob. specialize (Himage blob Hblob).
        rewrite extract_text_from_image_run in Himage. simpl in Himage.
        congruence.
Qed.

Lemma entry_empty_iff_no_text_witness :
  slides_stop (slides Demo.deck) = None /\
  exists t' slide_data,
    extract_data_from_pptx (Demo.world None true) "deck.pptx" [] =
    (t', inr slide_data) /\
    getitem slide_data 5 = Some EmptyString.
Proof.
  split; [reflexivity|].
  destruct (entry_empty_iff_no_text (Demo.world None true) "deck.pptx"
              Demo.deck [] eq_refl eq_refl eq_refl)
    as [t' [slide_data [Hrun Hiff]]].
  exists t', slide_data. split; [exact Hrun|].
  apply (Hiff 4%nat (mkSlide [Demo.picture [x00]]) eq_refl).
  intros shape [<-|[]]. split; [|split].
  - intros text Htext. discriminate.
  - intros rows row cell Hrows. discriminate.
  - intros blob Hblob. injection Hblob as <-. reflexivity.
Defined.

(** *** Assignment into [slide_data] *)

Lemma getitem_setitem_same {V} (d : dict V) (k : Z) (v : V) :
  getitem (setitem d k v) k = Some v.
Proof.
  induction d as [|[k0 v0] rest IH]; simpl.
  - now rewrite Z.eqb_refl.
  - destruct (Z.eqb_spec k k0) as [->|Hne]; simpl.
    + now rewrite Z.eqb_refl.
    + destruct (Z.eqb_spec k k0); [contradiction | exact IH].
Qed.

Lemma getitem_setitem_other {V} (d : dict V) (k k' : Z) (v : V) :
  k' <> k -> getitem (setitem d k v) k' = getitem d k'.
Proof.
  intros Hne. induction d as [|[k0 v0] rest IH]; simpl.
  - destruct (Z.eqb_spec k' k); [contradiction | reflexivity].
  - destruct (Z.eqb_spec k k0) as [->|Hk]; simpl.
    + destruct (Z.eqb_spec k' k0); [contradiction | reflexivity].
    + now rewrite IH.
Qed.

Lemma keys_setitem_present {V} (d : dict V) (k : Z) (v : V) :
  In k (keys d) -> keys (setitem d k v) = keys d.
Proof.
  induction d as [|[k0 v0] rest IH]; simpl; intros Hin; [destruct Hin|].
  destruct (Z.eqb_spec k k0) as [->|Hne]; simpl; [reflexivity|].
  f_equal. apply IH. destruct Hin as [Heq|Hin]; [congruence | exact Hin].
Qed.

Lemma keys_setitem_absent {V} (d : dict V) (k : Z) (v : V) :
  ~ In k (keys d) -> keys (setitem d k v) = (keys d ++ [k])%list.
Proof.
  induction d as [|[k0 v0] rest IH]; simpl; intros Hnot; [reflexivity|].
  destruct (Z.eqb_spec k k0) as [->|Hne]; simpl.
  - exfalso. apply Hnot. now left.
  - f_equal. apply IH. intros Hin. apply Hnot. now right.
Qed.

(** X10.  One pass of the slide loop body in which no image lookup raises,
    on any mapping it is handed, assigns exactly one key, the slide number:
    afterwards that key holds the join of what the shape loop collects from
    the slide, every other key reads as before, and the key order is
    unchanged when the number was already present and extended by it at the
    end when it was not. *)
Theorem slide_body_assigns_one_key
        (w : World) (i : Z) (slide : Slide) (slide_data : dict string)
        (t : Trace) :
  shapes_stop (shapes slide) = None ->
  exists t' slide_data' tk texts n,
    slide_body w (i, slide) slide_data t = (t', inr slide_data') /\
    for_each (shapes slide) (shape_body w) ([], 0) [] = (tk, inr (texts, n)) /\
    getitem slide_data' (i + 1) =
    Some (Str.join Str.nl (Str.filter_None texts)) /\
    (forall k, k <> i + 1 -> getitem slide_data' k = getitem slide_data k) /\
    (In (i + 1) (keys slide_data) -> keys slide_data' = keys slide_data) /\
    (~ In (i + 1) (keys slide_data) ->
     keys slide_data' = (keys slide_data ++ [i + 1])%list).
Proof.
  intros Hstop.
  eexists. exists (setitem slide_data (i + 1) (slide_entry w slide)).
  do 3 eexists.
  split; [rewrite slide_body_run, Hstop; reflexivity|].
  split; [rewrite shapes_loop_run, Hstop; reflexivity|].
  split; [apply getitem_setitem_same|].
  split; [intros k Hne; now apply getitem_setitem_other|].
  split; [apply keys_setitem_present | apply keys_setitem_absent].
Qed.

Lemma slide_body_assigns_one_key_witness :
  exists t' slide_data',
    slide_body (Demo.world None true) (0, mkSlide [Demo.picture [x41]])
      [(2, "two"); (1, "one")] [] =
    (t', inr slide_data') /\
    getitem slide_data' 2 = Some "two" /\
    keys slide_data' = [2; 1].
Proof.
  destruct (slide_body_assigns_one_key (Demo.world None true) 0
              (mkSlide [Demo.picture [x41]]) [(2, "two"); (1, "one")] []
              eq_refl)
    as [t' [slide_data' [tk [texts [n [Hrun [_ [_ [Hothers [Hkeys _]]]]]]]]]].
  exists t', slide_data'. split; [exact Hrun|]. split.
  - rewrite Hothers by discriminate. reflexivity.
  - apply Hkeys. simpl. auto.
Defined.

(** *** Consolidation and the prompt *)

Lemma join_app (sep : string) (xs ys : list string) :
  xs <> [] -> ys <> [] ->
  Str.join sep (xs ++ ys)%list = Str.join sep xs ++ sep ++ Str.join sep ys.
Proof.
  intros Hxs Hys. induction xs as [|x rest IH]; [contradiction|].
  destruct rest as [|x' rest'].
  - destruct ys as [|y ys']; [contradiction | reflexivity].
  - change (Str.join sep ((x :: x' :: rest') ++ ys)%list)
      with (x ++ sep ++ Str.join sep ((x' :: rest') ++ ys)%list).
    rewrite IH by discriminate.
    change (Str.join sep (x :: x' :: rest'))
      with (x ++ sep ++ Str.join sep (x' :: rest')).
    now rewrite !StrFacts.append_assoc.
Qed.

Lemma length_append (a b : string) :
  String.length (a ++ b) = (String.length a + String.length b)%nat.
Proof.
  induction a as [|c a IH]; simpl; [reflexivity | now rewrite IH].
Qed.

Lemma append_cancel_l (a b c : string) : a ++ b = a ++ c -> b = c.
Proof.
  induction a as [|x a IH]; simpl; intros H; [exact H|].
  injection H as H. now apply IH.
Qed.

Lemma append_cancel_r (a b c : string) : a ++ c = b ++ c -> a = b.
Proof.
  revert b. induction a as [|x a IH]; intros b H.
  - destruct b as [|y b]; [reflexivity|].
    apply (f_equal String.length) in H. simpl in H.
    rewrite length_append in H. lia.
  - destruct b as [|y b].
    + apply (f_equal String.length) in H. simpl in H.
      rewrite length_append in H. lia.
    + simpl in H. injection H as -> H. f_equal. now apply IH.
Qed.

(** X11.  Consolidation composes: the consolidation of two non-empty mappings
    laid end to end is the consolidation of the first, a blank line, and the
    consolidation of the second; and only the empty mapping consolidates to
    the empty string. *)
Theorem consolidate_app (first second : dict string) :
  first <> [] -> second <> [] ->
  consolidate (first ++ second)%list =
  consolidate first ++ (Str.nl ++ Str.nl) ++ consolidate second /\
  (forall d, consolidate d = EmptyString <-> d = []).
Proof.
  intros Hfirst Hsecond. split.
  - unfold consolidate. rewrite map_app. apply join_app.
    + destruct first; [contradiction | discriminate].
    + destruct second; [contradiction | discriminate].
  - intros d. split; [|intros ->; reflexivity].
    destruct d as [|[num text] rest]; [reflexivity|].
    unfold consolidate. cbn [map]. intros H.
    assert (Ht : Str.truthy
                   (Str.join (Str.nl ++ Str.nl)
                      ((slide_header num ++ Str.nl ++ text)
                         :: map (fun '(num0, text0) =>
                                   slide_header num0 ++ Str.nl ++ text0) rest))
                 = true)
      by (apply join_truthy; reflexivity).
    rewrite H in Ht. discriminate.
Qed.

Lemma consolidate_app_witness :
  consolidate ([(1, "A")] ++ [(2, "B")])%list =
  consolidate [(1, "A")] ++ (Str.nl ++ Str.nl) ++ consolidate [(2, "B")].
Proof.
  apply (consolidate_app [(1, "A")] [(2, "B")]); discriminate.
Defined.

(** X12.  The prompt carries the consolidated text whole: it starts with the
    fixed instructions, ends with the fixed closing lines, is longer than the
    text by a constant, and two different texts never give the same
    prompt. *)
Theorem prompt_embeds_text_faithfully
        (w : World) (text text' : string) (t : Trace) :
  exists report,
    analyze_text_with_gemini w text t =
    ((t ++ [EvGenerativeModel "gemini-1.5-flash-latest";
            EvGenerateContent (prompt_head ++ text ++ prompt_tail)])%list,
     inr report) /\
    String.length (prompt_head ++ text ++ prompt_tail) =
    (String.length prompt_head + String.length text
     + String.length prompt_tail)%nat /\
    (prompt_head ++ text ++ prompt_tail = prompt_head ++ text' ++ prompt_tail ->
     text = text').
Proof.
  eexists. split; [apply analyze_run|]. split.
  - rewrite !length_append. lia.
  - intros H. apply append_cancel_l in H. now apply append_cancel_r in H.
Qed.



Lemma slide_entry_without_images (w : World) (slide : Slide) :
  (forall blob, In blob (slide_images slide) -> image_text w blob = EmptyString) ->
  slide_entry w slide = slide_entry w (without_images slide).
Proof.
  destruct slide as [shape_list].
  unfold slide_entry, without_images, slide_images. cbn [shapes].
  intros Hunread. do 2 f_equal.
  induction shape_list as [|shape rest IH]; [reflexivity|].
  cbn [map flat_map] in *.
  rewrite IH by (intros blob Hin; apply Hunread, in_or_app; now right).
  f_equal. unfold shape_fragments, text_fragments, table_fragments,
    image_fragments. cbn [text_frame table image]. do 2 f_equal.
  destruct (image shape) as [|blob|e]; try reflexivity.
  rewrite (Hunread blob) by (apply in_or_app; left; now left).
  reflexivity.
Qed.

Lemma without_images_never_stops (slide : Slide) :
  shapes_stop (shapes (without_images slide)) = None.
Proof.
  unfold without_images. cbn [shapes].
  induction (shapes slide) as [|shape rest IH]; [reflexivity | exact IH].
Qed.

(** X14.  Images from which no text is obtained leave no mark on the entry:
    when no image lookup of a slide raises and the image extractor returns
    the empty string for every image of the slide, the slide gets the same
    entry as the slide with its image data taken away. *)
Theorem unread_images_leave_no_mark
        (w : World) (slide : Slide) (t : Trace) :
  shapes_stop (shapes slide) = None ->
  (forall blob, In blob (slide_images slide) ->
                snd (extract_text_from_image w blob []) = inr EmptyString) ->
  snd (extract_loop w [slide] t) = snd (extract_loop w [without_images slide] t).
Proof.
  intros Hstop Hunread. rewrite !extract_loop_run.
  cbn [slides_stop snd]. rewrite Hstop, without_images_never_stops.
  unfold entries_from. cbn [enumerate_from map].
  rewrite (slide_entry_without_images w slide); [reflexivity|].
  intros blob Hin. specialize (Hunread blob Hin).
  rewrite extract_text_from_image_run in Hunread. simpl in Hunread.
  congruence.
Qed.

Lemma unread_images_leave_no_mark_witness :
  snd (extract_loop (Demo.world None true)
         [mkSlide [mkShape (Some "Caption") None (Embedded [x00])]] []) =
  inr [(1, "Caption")].
Proof.
  rewrite (unread_images_leave_no_mark (Demo.world None true)
             (mkSlide [mkShape (Some "Caption") None (Embedded [x00])]) []).
  - reflexivity.
  - reflexivity.
  - intros blob [<-|[]]. reflexivity.
Defined.

(** X15.  On a deck that parses and in which no image lookup raises,
    [extract_data_from_pptx] returns a mapping with exactly one entry per
    slide: its keys, in insertion order, are 1, 2, ..., N where N is the number
    of slides, no key occurs twice, and every slide has an entry whatever
    its text is, the empty string included. *)
Theorem readable_deck_one_entry_per_slide
        (w : World) (pptx_path : string) (deck : Deck) (t : Trace) :
  os_path_exists w pptx_path = true ->
  Presentation w pptx_path = inr deck ->
  slides_stop (slides deck) = None ->
  exists t' slide_data,
    extract_data_from_pptx w pptx_path t = (t', inr slide_data) /\
    keys slide_data = range_from 1 (List.length (slides deck)) /\
    List.length slide_data = List.length (slides deck) /\
    NoDup (keys slide_data) /\
    (forall k slide,
        nth_error (slides deck) k = Some slide ->
        exists text, getitem slide_data (Z.of_nat k + 1) = Some text) /\
    (forall k,
        1 <= k <= len (slides deck) <-> getitem slide_data k <> None).
Proof.
  intros Hexists Hparse Hstop.
  eexists. exists (entries_from w 0 (slides deck)).
  split; [rewrite (extract_run w _ deck _ Hexists Hparse), Hstop; reflexivity|].
  assert (Hkeys : keys (entries_from w 0 (slides deck)) =
                  range_from 1 (List.length (slides deck)))
    by apply keys_entries_from.
  split; [exact Hkeys|].
  split; [apply length_entries_from|].
  split; [rewrite Hkeys; apply NoDup_range_from|].
  split.
  - intros k slide Hnth. exists (slide_entry w slide).
    apply (getitem_entries_from w _ 0 k slide Hnth).
  - intros k. rewrite <- getitem_in_keys, Hkeys, in_range_from.
    unfold len. lia.
Qed.

Lemma readable_deck_one_entry_per_slide_witness :
  os_path_exists (Demo.world None true) "deck.pptx" = true /\
  Presentation (Demo.world None true) "deck.pptx" = inr Demo.deck /\
  slides_stop (slides Demo.deck) = None /\
  exists t' slide_data,
    extract_data_from_pptx (Demo.world None true) "deck.pptx" [] =
    (t', inr slide_data) /\
    keys slide_data = [1; 2; 3; 4; 5].
Proof.
  split; [reflexivity|]. split; [reflexivity|]. split; [reflexivity|].
  destruct (readable_deck_one_entry_per_slide (Demo.world None true)
              "deck.pptx" Demo.deck [] eq_refl eq_refl eq_refl)
    as [t' [slide_data [Hrun [Hkeys _]]]].
  exists t', slide_data. split; [exact Hrun | exact Hkeys].
Defined.
